(** * ai-features.js: page behaviours of the trading journal

    A shallow embedding of [app/static/js/ai-features.js]: the mark-read
    click handler, [updateUnreadCount], the checklist change handler, the
    checklist restoration loop and [updateChecklistProgress].

    - JavaScript Numbers are IEEE-754 binary64 values, taken from the
      Standard Library's [SpecFloat] with [prec = 53] and [emax = 1024];
      [/] and [*] are [SFdiv] and [SFmul].
    - The part of the DOM the script touches is a record per element
      kind; [classList] is an ordered token list.
    - [localStorage] is a finite map from keys to strings.
    - A handler that awaits [fetch] takes the outcome of each request as
      an argument and returns the new document with the trace of what it
      did to the outside (requests issued, lines logged).
    - An exception is a [Throw] completion that carries the document as
      it stood when the exception left the function. *)

From Stdlib Require Import ZArith Lia SpecFloat DecimalString.
From stdpp Require Import base option list strings gmap.

Local Open Scope Z_scope.

(** ** Numbers *)

Definition prec : Z := 53.
Definition emax : Z := 1024.

Definition number : Type := spec_float.

Definition num_of_Z (z : Z) : number := binary_normalize prec emax z 0 false.
Definition num_of_nat (n : nat) : number := num_of_Z (Z.of_nat n).

Definition num_div : number -> number -> number := SFdiv prec emax.
Definition num_mul : number -> number -> number := SFmul prec emax.

(** [a === b], [a >= b] and [a < b] on Numbers; all three are false when
    an operand is NaN. *)
Definition num_strict_eq (a b : number) : bool := SFeqb a b.
Definition num_ge (a b : number) : bool := SFleb b a.

(** The literals [100] and [50]. *)
Definition n100 : number := Eval vm_compute in num_of_Z 100.
Definition n50 : number := Eval vm_compute in num_of_Z 50.

(** [Math.round]: the integer nearest to [x], ties towards +infinity;
    NaN, the infinities and integral values are returned as they are, and
    a result of zero keeps the sign of [x]. *)
Definition Math_round (x : number) : number :=
  match x with
  | S754_finite s m e =>
      if 0 <=? e then x
      else
        let sm := if s then Z.neg m else Z.pos m in
        let n := (2 * sm + 2 ^ (- e)) / 2 ^ (1 - e) in
        if n =? 0 then S754_zero s else num_of_Z n
  | _ => x
  end.

(** *** Number to String

    [Number::toString] of ECMA-262: the shortest decimal [s * 10^(n-k)],
    with [k] digits, that converts back to the same Number, the nearest
    one when there are several. *)

Definition digits_of_Z (z : Z) : string :=
  NilZero.string_of_uint (N.to_uint (Z.to_N z)).

(** Compares [s * 10^p] with [N * 2^E]. *)
Definition cmp_dec_bin (s p N E : Z) : comparison :=
  (s * 10 ^ Z.max p 0 * 2 ^ Z.max (- E) 0 ?= N * 2 ^ Z.max E 0 * 10 ^ Z.max (- p) 0).

(** The [n] with [10^(n-1) <= m * 2^e < 10^n]: counted up from 1 when
    [m * 2^e] is at least 1, and down from 0 when it is below 1. *)
Fixpoint find_n_up (fuel : nat) (n m e : Z) : Z :=
  match fuel with
  | O => n
  | S fuel' =>
      match cmp_dec_bin 1 n m e with
      | Gt => n
      | _ => find_n_up fuel' (n + 1) m e
      end
  end.

Fixpoint find_n_down (fuel : nat) (n m e : Z) : Z :=
  match fuel with
  | O => n
  | S fuel' =>
      match cmp_dec_bin 1 (n - 1) m e with
      | Gt => find_n_down fuel' (n - 1) m e
      | _ => n
      end
  end.

Definition find_n (m e : Z) : Z :=
  match cmp_dec_bin 1 0 m e with
  | Gt => find_n_down 330 0 m e
  | _ => find_n_up 330 1 m e
  end.

(** Does the decimal [s * 10^p] convert to the Number [m * 2^e]?  It does
    when it lies between the midpoints to the two neighbours of
    [m * 2^e], a midpoint itself counting when [m] is even. *)
Definition in_interval (m e s p : Z) : bool :=
  let d := if (m =? 2 ^ (prec - 1)) && (emin prec emax <? e) then 1 else 2 in
  let lo := cmp_dec_bin s p (4 * m - d) (e - 2) in
  let hi := cmp_dec_bin s p (4 * m + 2) (e - 2) in
  match lo, hi with
  | Gt, Lt => true
  | Eq, _ | _, Eq => Z.even m
  | _, _ => false
  end.

(** [floor (m * 2^e / 10^p)]. *)
Definition floor_scaled (m e p : Z) : Z :=
  (m * 2 ^ Z.max e 0 * 10 ^ Z.max (- p) 0) / (2 ^ Z.max (- e) 0 * 10 ^ Z.max p 0).

(** Of the two multiples of [10^p] around [m * 2^e], the one that
    converts back to it; the nearer one when both do, the even one on a
    tie. *)
Definition pick (m e p : Z) : option Z :=
  let s := floor_scaled m e p in
  match in_interval m e s p, in_interval m e (s + 1) p with
  | false, false => None
  | true, false => Some s
  | false, true => Some (s + 1)
  | true, true =>
      match cmp_dec_bin (2 * s + 1) p (2 * m) e with
      | Gt => Some s
      | Lt => Some (s + 1)
      | Eq => Some (if Z.even s then s else s + 1)
      end
  end.

Fixpoint shortest (fuel : nat) (k m e n : Z) : Z * Z :=
  match fuel with
  | O => (k, floor_scaled m e (n - k))
  | S fuel' =>
      match pick m e (n - k) with
      | Some s => (k, s)
      | None => shortest fuel' (k + 1) m e n
      end
  end.

(** The triple [(n, k, s)] of [Number::toString] for [m * 2^e]. *)
Definition nks (m e : Z) : Z * Z * Z :=
  let n0 := find_n m e in
  if in_interval m e 1 n0 then (n0 + 1, 1, 1)
  else let '(k, s) := shortest 17 1 m e n0 in (n0, k, s).

Definition zeros (n : Z) : string :=
  String.concat EmptyString (replicate (Z.to_nat n) "0"%string).

Definition format_nks (n k s : Z) : string :=
  let ds := digits_of_Z s in
  if (k <=? n) && (n <=? 21) then ds +:+ zeros (n - k)
  else if (0 <? n) && (n <=? 21) then
    String.substring 0 (Z.to_nat n) ds +:+ "." +:+
    String.substring (Z.to_nat n) (Z.to_nat (k - n)) ds
  else if (-6 <? n) && (n <=? 0) then "0." +:+ zeros (- n) +:+ ds
  else
    let ex := (if 0 <? n - 1 then "+" else "-") +:+ digits_of_Z (Z.abs (n - 1)) in
    if k =? 1 then ds +:+ "e" +:+ ex
    else String.substring 0 1 ds +:+ "." +:+
         String.substring 1 (Z.to_nat (k - 1)) ds +:+ "e" +:+ ex.

Definition Number_toString (x : number) : string :=
  match x with
  | S754_nan => "NaN"
  | S754_zero _ => "0"
  | S754_infinity s => if s then "-Infinity" else "Infinity"
  | S754_finite s m e =>
      let '(n, k, d) := nks (Z.pos m) e in
      (if s then "-"%string else EmptyString) +:+ format_nks n k d
  end.

(** An array length is an integral Number below 2^32; it prints as its
    decimal digits. *)
Definition length_toString (n : nat) : string :=
  NilZero.string_of_uint (Nat.to_uint n).

(** A template literal prints an absent [dataset] entry as [undefined]. *)
Definition interpolate (v : option string) : string := default "undefined"%string v.

(** ** The document *)

(** [classList.add] and [classList.remove] on a token list. *)
Definition classList_add (c : string) (cl : list string) : list string :=
  if bool_decide (c ∈ cl) then cl else cl ++ [c].

Definition classList_remove (cs : list string) (cl : list string) : list string :=
  filter (λ c, c ∉ cs) cl.

(** [input.checklist-item]: the [data-item-id] and [data-required]
    attributes, and the [checked] property. *)
Record Checkbox := {
  data_item_id : option string;
  data_required : option string;
  checked : bool
}.

(** [.progress-bar]: [style.width], [textContent] and [classList]. *)
Record ProgressBar := {
  style_width : string;
  pb_textContent : string;
  pb_classList : list string
}.

(** [.checklist-card]: the [data-checklist-id] attribute, the
    [.checklist-item] elements inside the card in document order, and the
    first [.progress-bar] inside it, if any.  Cards are not nested. *)
Record Card := {
  data_checklist_id : option string;
  items : list Checkbox;
  progress_bar : option ProgressBar
}.

(** [#news-badge]. *)
Record Badge := {
  badge_textContent : string;
  badge_classList : list string
}.

(** [.mark-news-read]: the [data-news-id] attribute. *)
Record MarkReadBtn := { data_news_id : option string }.

(** [.news-item]: its [classList] and the mark-read buttons inside it. *)
Record NewsItem := {
  ni_classList : list string;
  ni_buttons : list MarkReadBtn
}.

(** The page: the news items, the mark-read buttons that sit outside
    every news item, the badge, and the checklist cards. *)
Record Document := {
  news_items : list NewsItem;
  stray_buttons : list MarkReadBtn;
  news_badge : option Badge;
  cards : list Card
}.

Definition set_cards (cs : list Card) (doc : Document) : Document :=
  {| news_items := news_items doc; stray_buttons := stray_buttons doc;
     news_badge := news_badge doc; cards := cs |}.

Definition set_news_items (ns : list NewsItem) (doc : Document) : Document :=
  {| news_items := ns; stray_buttons := stray_buttons doc;
     news_badge := news_badge doc; cards := cards doc |}.

Definition set_news_badge (b : Badge) (doc : Document) : Document :=
  {| news_items := news_items doc; stray_buttons := stray_buttons doc;
     news_badge := Some b; cards := cards doc |}.

(** ** Network, console and exceptions *)

Inductive JsError :=
  | NetworkFailure   (* fetch rejected *)
  | InvalidJson      (* response.json() rejected *)
  | TypeError.       (* a property read on null or undefined *)

(** What [response.json()] gives, as far as [data.news.length] goes:
    the body does not parse; it parses but [data.news.length] cannot be
    read ([data] is null, or has no [news]); or [data.news] is an array.
    The entries of the array are never looked at and are kept as text. *)
Inductive Body :=
  | BodyUnparseable
  | BodyWithoutNews
  | BodyNews (news : list string).

Record Response := {
  status : Z;
  body : Body
}.

(** [response.ok]. *)
Definition ok (r : Response) : bool := (200 <=? status r) && (status r <=? 299).

Inductive FetchResult :=
  | Rejected (e : JsError)
  | Fulfilled (r : Response).

Inductive Method := GET | POST.

Inductive Effect :=
  | Fetch (m : Method) (url : string)
  | ConsoleError (msg : string) (e : JsError).

Inductive Completion :=
  | Normal (doc : Document)
  | Throw (e : JsError) (doc : Document).

(** ** Unread news count (lines 37-55) *)

Definition updateUnreadCount (get : FetchResult) (doc : Document)
  : Document * list Effect :=
  let request := Fetch GET "/api/news?unread_only=true" in
  let caught e := (doc, [request; ConsoleError "Error updating news count:" e]) in
  match get with
  | Rejected e => caught e
  | Fulfilled response =>
      if ok response then
        match body response with
        | BodyUnparseable => caught InvalidJson
        | data =>
            match news_badge doc with
            | None => (doc, [request])
            | Some badge =>
                match data with
                | BodyNews news =>
                    if (0 <? length news)%nat then
                      (set_news_badge
                         {| badge_textContent := length_toString (length news);
                            badge_classList := classList_remove ["d-none"%string] (badge_classList badge) |}
                         doc, [request])
                    else
                      (set_news_badge
                         {| badge_textContent := badge_textContent badge;
                            badge_classList := classList_add "d-none" (badge_classList badge) |}
                         doc, [request])
                | _ => caught TypeError
                end
            end
        end
      else (doc, [request])
  end.

(** ** Mark news as read (lines 14-34) *)

(** A mark-read button: the [j]-th inside the [i]-th news item, or the
    [j]-th of those outside every news item. *)
Inductive ButtonRef :=
  | InNewsItem (i j : nat)
  | Stray (j : nat).

Definition lookup_button (doc : Document) (b : ButtonRef) : option MarkReadBtn :=
  match b with
  | InNewsItem i j => item ← news_items doc !! i; ni_buttons item !! j
  | Stray j => stray_buttons doc !! j
  end.

Definition mark_read_url (btn : MarkReadBtn) : string :=
  "/news/" +:+ interpolate (data_news_id btn) +:+ "/mark-read".

(** The click handler of the button [b]; [post] is the outcome of its own
    request and [get] the outcome of the request of the
    [updateUnreadCount] call it may start.  There is no click without the
    button. *)
Definition mark_news_read_click (b : ButtonRef) (post get : FetchResult)
    (doc : Document) : option (Document * list Effect) :=
  btn ← lookup_button doc b;
  let request := Fetch POST (mark_read_url btn) in
  let caught e := (doc, [request; ConsoleError "Error marking news as read:" e]) in
  Some
    match post with
    | Rejected e => caught e
    | Fulfilled response =>
        if ok response then
          match b with
          | Stray _ => caught TypeError          (* closest('.news-item') is null *)
          | InNewsItem i j =>
              match news_items doc !! i with
              | None => caught TypeError
              | Some item =>
                  let faded :=
                    {| ni_classList := classList_add "opacity-50" (ni_classList item);
                       ni_buttons := delete j (ni_buttons item) |} in
                  let doc' := set_news_items (<[i := faded]> (news_items doc)) doc in
                  let '(doc'', effects) := updateUnreadCount get doc' in
                  (doc'', request :: effects)
              end
          end
        else (doc, [request])
    end.

(** ** Checklists (lines 61-120) *)

Definition storage_key (checklistId itemId : option string) : string :=
  "checklist_" +:+ interpolate checklistId +:+ "_" +:+ interpolate itemId.

(** [String(isChecked)], as [localStorage.setItem] stores it. *)
Definition bool_toString (b : bool) : string := if b then "true" else "false".

(** [.checklist-item[data-required="true"]]. *)
Definition is_required (item : Checkbox) : bool :=
  bool_decide (data_required item = Some "true"%string).

(** [document.querySelector('.checklist-card[data-checklist-id="<id>"]')]:
    the first card whose attribute is the interpolated identifier, with
    its position.  The identifier is spliced into a quoted CSS string;
    the model covers identifiers without a double quote, a backslash or a
    line break. *)
Definition querySelector_card (checklistId : option string) (doc : Document)
  : option (nat * Card) :=
  list_find (λ c, data_checklist_id c = Some (interpolate checklistId)) (cards doc).

Definition totalItems (card : Card) : nat := length (items card).
Definition checkedItems (card : Card) : nat := length (filter (λ i, checked i = true) (items card)).
Definition requiredItems (card : Card) : list Checkbox :=
  filter (λ i, is_required i = true) (items card).
Definition checkedRequired (card : Card) : nat :=
  length (filter (λ i, checked i = true) (requiredItems card)).
Definition totalRequired (card : Card) : nat := length (requiredItems card).

Definition progress (card : Card) : number :=
  num_mul (num_div (num_of_nat (checkedItems card)) (num_of_nat (totalItems card))) n100.

Definition requiredProgress (card : Card) : number :=
  if (0 <? totalRequired card)%nat
  then num_mul (num_div (num_of_nat (checkedRequired card)) (num_of_nat (totalRequired card))) n100
  else n100.

(** [style.width = `${x}%`]: a declaration that is not valid CSS (a
    percentage that is NaN, infinite or negative) is dropped and the
    width stays as it was. *)
Definition valid_percentage (x : number) : bool :=
  match x with
  | S754_zero _ | S754_finite false _ _ => true
  | _ => false
  end.

Definition assign_width (x : number) (old : string) : string :=
  if valid_percentage x then Number_toString x +:+ "%" else old.

Definition paint (card : Card) (bar : ProgressBar) : ProgressBar :=
  let width := assign_width (progress card) (style_width bar) in
  let text := Number_toString (Math_round (progress card)) +:+ "%" in
  let classes :=
    if num_strict_eq (requiredProgress card) n100 then
      classList_add "bg-success" (classList_remove ["bg-warning"; "bg-danger"]%string (pb_classList bar))
    else if num_ge (requiredProgress card) n50 then
      classList_add "bg-warning" (classList_remove ["bg-success"; "bg-danger"]%string (pb_classList bar))
    else
      classList_add "bg-danger" (classList_remove ["bg-success"; "bg-warning"]%string (pb_classList bar)) in
  {| style_width := width; pb_textContent := text; pb_classList := classes |}.

Definition updateChecklistProgress (checklistId : option string) (doc : Document)
  : Completion :=
  match querySelector_card checklistId doc with
  | None => Throw TypeError doc            (* card is null *)
  | Some (k, card) =>
      match progress_bar card with
      | None => Normal doc
      | Some bar =>
          let card' :=
            {| data_checklist_id := data_checklist_id card; items := items card;
               progress_bar := Some (paint card bar) |} in
          Normal (set_cards (<[k := card']> (cards doc)) doc)
      end
  end.

(** The [change] handler of the [j]-th checkbox of the [i]-th card; the
    browser has already flipped [checked] when it runs.  It returns the
    storage after [setItem] and the completion of the progress update. *)
Definition checklist_item_change (ls : gmap string string) (doc : Document)
    (i j : nat) : option (gmap string string * Completion) :=
  card ← cards doc !! i;
  item ← items card !! j;
  let checklistId := data_checklist_id card in
  let itemId := data_item_id item in
  let isChecked := checked item in
  let key := storage_key checklistId itemId in
  Some (<[key := bool_toString isChecked]> ls, updateChecklistProgress checklistId doc).

(** The user clicks the checkbox: [checked] flips, then the handler runs. *)
Definition set_checked (b : bool) (item : Checkbox) : Checkbox :=
  {| data_item_id := data_item_id item; data_required := data_required item; checked := b |}.

Definition set_items (its : list Checkbox) (card : Card) : Card :=
  {| data_checklist_id := data_checklist_id card; items := its;
     progress_bar := progress_bar card |}.

Definition toggle (ls : gmap string string) (doc : Document) (i j : nat)
  : option (gmap string string * Completion) :=
  card ← cards doc !! i;
  item ← items card !! j;
  let item' := set_checked (negb (checked item)) item in
  let doc' := set_cards (<[i := set_items (<[j := item']> (items card)) card]> (cards doc)) doc in
  checklist_item_change ls doc' i j.

(** The restoration loop (lines 77-88). *)
Definition restore_item (ls : gmap string string) (checklistId : option string)
    (item : Checkbox) : Checkbox :=
  match ls !! storage_key checklistId (data_item_id item) with
  | Some savedState => set_checked (bool_decide (savedState = "true"%string)) item
  | None => item
  end.

Definition restore_card (ls : gmap string string) (card : Card) : Card :=
  set_items (restore_item ls (data_checklist_id card) <$> items card) card.



(** ** Colour tiers *)

Inductive Tier := Success | Warning | Danger.

Definition tier_class (t : Tier) : string :=
  match t with
  | Success => "bg-success"
  | Warning => "bg-warning"
  | Danger => "bg-danger"
  end.

Definition has_class (c : string) (cl : list string) : bool := bool_decide (c ∈ cl).

(** The tier a bar shows: defined when exactly one of the three tier
    classes is on it. *)
Definition bar_tier (bar : ProgressBar) : option Tier :=
  match has_class "bg-success" (pb_classList bar),
        has_class "bg-warning" (pb_classList bar),
        has_class "bg-danger" (pb_classList bar) with
  | true, false, false => Some Success
  | false, true, false => Some Warning
  | false, false, true => Some Danger
  | _, _, _ => None
  end.

(** The tier chosen by the three-way test of lines 109-118. *)
Definition tier_for (rp : number) : Tier :=
  if num_strict_eq rp n100 then Success
  else if num_ge rp n50 then Warning
  else Danger.

(** The bar of the [k]-th card. *)
Definition bar_at (doc : Document) (k : nat) : option ProgressBar :=
  card ← cards doc !! k; progress_bar card.

(** The [j]-th checkbox of the [i]-th card. *)
Definition checkbox_at (doc : Document) (i j : nat) : option Checkbox :=
  card ← cards doc !! i; items card !! j.

(** What the restoration loop reads of a card, the identifier and the
    checkboxes, and what it makes of them. *)
Definition card_core (c : Card) : option string * list Checkbox :=
  (data_checklist_id c, items c).

Definition restore_core (ls : gmap string string)
    (c : option string * list Checkbox) : option string * list Checkbox :=
  (c.1, restore_item ls c.1 <$> c.2).


(** ** A sample page *)

Definition box (id : string) (required isChecked : bool) : Checkbox :=
  {| data_item_id := Some id;
     data_required := if required then Some "true"%string else None;
     checked := isChecked |}.

Definition sample_bar : ProgressBar :=
  {| style_width := "0%"; pb_textContent := "0%";
     pb_classList := ["progress-bar"; "bg-success"; "bg-danger"]%string |}.

(** Four items, two of them required; one required and one other item
    are checked. *)
Definition card_A : Card :=
  {| data_checklist_id := Some "A"%string;
     items := [box "1" true true; box "2" true false; box "3" false true; box "4" false false];
     progress_bar := Some sample_bar |}.

(** Three items, none required, one checked. *)
Definition card_B : Card :=
  {| data_checklist_id := Some "B"%string;
     items := [box "1" false true; box "2" false false; box "3" false false];
     progress_bar := Some sample_bar |}.

(** A card without a progress bar. *)
Definition card_C : Card :=
  {| data_checklist_id := Some "C"%string;
     items := [box "1" true false];
     progress_bar := None |}.

Definition sample_page : Document :=
  {| news_items :=
       [ {| ni_classList := ["news-item"%string];
            ni_buttons := [ {| data_news_id := Some "42"%string |} ] |} ];
     stray_buttons := [];
     news_badge := Some {| badge_textContent := "3"; badge_classList := ["badge"%string] |};
     cards := [card_A; card_B; card_C] |}.

(** A card of [total] items, none required, the first [n] checked. *)
Definition card_of (n total : nat) : Card :=
  {| data_checklist_id := Some "N"%string;
     items := replicate n (box "x" false true) ++ replicate (total - n) (box "x" false false);
     progress_bar := Some sample_bar |}.



Definition response_200 (news : list string) : FetchResult :=
  Fulfilled {| status := 200; body := BodyNews news |}.

Definition response_500 : FetchResult :=
  Fulfilled {| status := 500; body := BodyUnparseable |}.

(** ** Failed requests *)

(** A network outcome that is a failure: a rejected promise or a
    response outside 200-299. *)
Definition failed (o : FetchResult) : bool :=
  match o with
  | Rejected _ => true
  | Fulfilled r => negb (ok r)
  end.

(** What a handler logs for a failed request. *)
Definition logged (msg : string) (o : FetchResult) : list Effect :=
  match o with
  | Rejected e => [ConsoleError msg e]
  | Fulfilled _ => []
  end.

Definition unread_request : Effect := Fetch GET "/api/news?unread_only=true".

(** ** Bounds on binary64 values *)

(** [x] is +0 or a positive value of at most [K * 2^E]. *)
Definition bounded_above (K E : Z) (x : number) : Prop :=
  match x with
  | S754_zero s => s = false
  | S754_finite s m e => s = false /\ e <= E /\ Z.pos m <= K * 2 ^ (E - e)
  | _ => False
  end.

(** [x] is positive and, read against the canonical [K * 2^E], not below
    it: a larger exponent, or the same exponent and a mantissa of at
    least [K]. *)
Definition not_below (K E : Z) (x : number) : Prop :=
  match x with
  | S754_finite s m e => s = false /\ (E < e \/ (e = E /\ K <= Z.pos m))
  | S754_infinity s => s = false
  | _ => False
  end.

(** [x] is +0 or a positive value of at most 100. *)
Definition at_most_100 (x : number) : Prop := bounded_above 7036874417766400 (-46) x.

(** ** Further notions for the checklist code *)

(** The document a completion leaves behind. *)
Definition document_of (c : Completion) : Document :=
  match c with
  | Normal doc => doc
  | Throw _ doc => doc
  end.







(** ** Page load (lines 2, 58, 77-88 and 122-153) *)







(** * Binary64 arithmetic

    What the proofs below need of [SFdiv] and [SFmul]: a quotient of two
    counts and its product with 100 never leave the range from 0 to 100. *)

Lemma fexp_eq e : fexp prec emax e = Z.max (e - 53) (-1074).
Proof. reflexivity. Qed.

Lemma fexp_mono a b : a <= b -> fexp prec emax a <= fexp prec emax b.
Proof. rewrite !fexp_eq. lia. Qed.

Lemma digits2_pos_size p : digits2_pos p = Pos.size p.
Proof. induction p as [p IH|p IH|]; simpl; congruence. Qed.

Lemma Zdigits2_nonneg m : 0 <= Zdigits2 m.
Proof. destruct m; simpl; lia. Qed.

Lemma Zdigits2_bounds m : 0 < m -> 2 ^ (Zdigits2 m - 1) <= m < 2 ^ Zdigits2 m.
Proof.
  destruct m as [|p|p]; try lia. intros _. simpl. rewrite digits2_pos_size.
  pose proof (Pos.size_gt p) as Hgt. pose proof (Pos.size_le p) as Hle.
  apply Pos2Z.pos_lt_pos in Hgt. apply Pos2Z.pos_le_pos in Hle.
  rewrite Pos2Z.inj_pow in Hgt, Hle.
  split; [|exact Hgt].
  replace (Z.pos (Pos.size p)) with (Z.succ (Z.pos (Pos.size p) - 1)) in Hle by lia.
  rewrite Z.pow_succ_r in Hle by lia. lia.
Qed.

Lemma Zdigits2_le_of_lt m k : 0 <= m -> 0 <= k -> m < 2 ^ k -> Zdigits2 m <= k.
Proof.
  intros Hm Hk Hlt. destruct (Z.eq_dec m 0) as [->|Hne]; [simpl; lia|].
  destruct (Zdigits2_bounds m ltac:(lia)) as [Hlo _].
  destruct (Z_le_gt_dec (Zdigits2 m) k) as [|Hgt]; [assumption|exfalso].
  assert (2 ^ k <= 2 ^ (Zdigits2 m - 1)) by (apply Z.pow_le_mono_r; lia). lia.
Qed.

Lemma shr_1_m mrs : 0 <= shr_m mrs -> shr_m (shr_1 mrs) = shr_m mrs / 2.
Proof.
  destruct mrs as [m r s]. simpl. intros Hm.
  destruct m as [|[p|p|]|p]; cbn [shr_m shr_1]; try lia; try reflexivity.
  - apply Z.div_unique with 1; lia.
  - apply Z.div_unique with 0; lia.
Qed.

Lemma iter_shr_1_m p : forall mrs, 0 <= shr_m mrs ->
  shr_m (SpecFloat.iter_pos shr_1 p mrs) = shr_m mrs / 2 ^ Z.pos p.
Proof.
  assert (Hnn : forall mrs, 0 <= shr_m mrs -> 0 <= shr_m (shr_1 mrs)).
  { intros mrs H. rewrite shr_1_m by assumption. apply Z.div_pos; lia. }
  induction p as [p IH|p IH|]; intros mrs Hm; cbn [SpecFloat.iter_pos].
  - assert (H1 := Hnn _ Hm).
    assert (H2 : 0 <= shr_m (SpecFloat.iter_pos shr_1 p (shr_1 mrs))).
    { rewrite IH by assumption. apply Z.div_pos; lia. }
    rewrite IH by assumption. rewrite IH by assumption. rewrite shr_1_m by assumption.
    rewrite !Z.div_div by lia. f_equal.
    change (Z.pos p~1) with (2 * Z.pos p + 1).
    replace (2 * Z.pos p + 1) with (1 + Z.pos p + Z.pos p) by lia.
    rewrite !Z.pow_add_r by lia. lia.
  - assert (H2 : 0 <= shr_m (SpecFloat.iter_pos shr_1 p mrs)).
    { rewrite IH by assumption. apply Z.div_pos; lia. }
    rewrite IH by assumption. rewrite IH by assumption.
    rewrite !Z.div_div by lia. f_equal.
    change (Z.pos p~0) with (2 * Z.pos p).
    replace (2 * Z.pos p) with (Z.pos p + Z.pos p) by lia.
    rewrite !Z.pow_add_r by lia. lia.
  - rewrite shr_1_m by assumption. reflexivity.
Qed.

Lemma shr_record_of_loc_m m l : shr_m (shr_record_of_loc m l) = m.
Proof. destruct l as [|[]]; reflexivity. Qed.

(** What [shr_fexp] does to a non-negative mantissa: it drops the bits
    below the exponent [fexp (digits + e)], or nothing when the mantissa
    already fits. *)
Lemma shr_fexp_m m e l :
  0 <= m ->
  let n := fexp prec emax (Zdigits2 m + e) - e in
  shr_m (fst (shr_fexp prec emax m e l)) = (if 0 <? n then m / 2 ^ n else m) /\
  snd (shr_fexp prec emax m e l) = (if 0 <? n then e + n else e).
Proof.
  intros Hm n. unfold shr_fexp. fold n. unfold shr.
  destruct n as [|p|p]; simpl.
  - split; [apply shr_record_of_loc_m|reflexivity].
  - split; [|reflexivity].
    rewrite iter_shr_1_m; rewrite shr_record_of_loc_m; [reflexivity|assumption].
  - split; [apply shr_record_of_loc_m|reflexivity].
Qed.

Lemma round_nearest_even_bounds m l :
  m <= round_nearest_even m l <= m + 1.
Proof. destruct l as [|[]]; simpl; try lia. destruct (Z.even m); lia. Qed.

(** Upper bound on a rounded result: a value strictly below a
    representable bound [K * 2^E] rounds to at most that bound. *)
Lemma binary_round_aux_upper sx mx ex lx K E :
  0 <= mx -> 0 < K ->
  fexp prec emax (Zdigits2 K + E) = E -> E <= emax - prec ->
  ex <= E -> mx < K * 2 ^ (E - ex) ->
  match binary_round_aux prec emax sx mx ex lx with
  | S754_zero s => s = sx
  | S754_finite s m e => s = sx /\ e <= E /\ Z.pos m <= K * 2 ^ (E - e)
  | _ => False
  end.
Proof.
  intros Hmx HK Hcan HE Hex Hlt.
  assert (HKd : K < 2 ^ Zdigits2 K) by (apply Zdigits2_bounds; lia).
  assert (HdK := Zdigits2_nonneg K).
  (* a mantissa below the bound, at an exponent below E, is shifted to an
     exponent that is still at most E and stays below the bound *)
  assert (Hstep : forall m e l, 0 <= m -> e <= E -> m <= K * 2 ^ (E - e) ->
     let r := shr_fexp prec emax m e l in
     0 <= shr_m (fst r) /\ snd r <= E /\ shr_m (fst r) <= K * 2 ^ (E - snd r) /\
     (m < K * 2 ^ (E - e) -> shr_m (fst r) < K * 2 ^ (E - snd r))).
  { intros m e l Hm He Hle r.
    destruct (shr_fexp_m m e l Hm) as [H1 H2]. fold r in H1, H2.
    rewrite H1, H2. clear H1 H2.
    set (n := fexp prec emax (Zdigits2 m + e) - e).
    destruct (Z.ltb_spec 0 n) as [Hn|Hn].
    - assert (Hd : Zdigits2 m + e <= Zdigits2 K + E).
      { assert (m < 2 ^ (Zdigits2 K + (E - e))).
        { rewrite Z.pow_add_r by lia.
          assert (0 < 2 ^ (E - e)) by (apply Z.pow_pos_nonneg; lia). nia. }
        assert (Zdigits2 m <= Zdigits2 K + (E - e)) by (apply Zdigits2_le_of_lt; lia).
        lia. }
      assert (Hf := fexp_mono _ _ Hd). rewrite Hcan in Hf.
      assert (HnE : e + n <= E) by (unfold n; lia).
      assert (Hsplit : 2 ^ (E - e) = 2 ^ (E - (e + n)) * 2 ^ n).
      { rewrite <- Z.pow_add_r by lia. f_equal. lia. }
      assert (0 < 2 ^ n) by (apply Z.pow_pos_nonneg; lia).
      assert (0 < 2 ^ (E - (e + n))) by (apply Z.pow_pos_nonneg; lia).
      repeat split.
      + apply Z.div_pos; lia.
      + assumption.
      + apply Z.div_le_upper_bound; [lia|]. rewrite Hsplit in Hle. nia.
      + intros Hs. apply Z.div_lt_upper_bound; [lia|]. rewrite Hsplit in Hs. nia.
    - repeat split; auto. }
  unfold binary_round_aux.
  destruct (Hstep mx ex lx Hmx Hex ltac:(lia)) as (Ha & Hb & _ & Hc).
  specialize (Hc Hlt).
  destruct (shr_fexp prec emax mx ex lx) as [mrs' e'] eqn:E1. simpl in Ha, Hb, Hc.
  pose proof (round_nearest_even_bounds (shr_m mrs') (loc_of_shr_record mrs')) as Hr.
  set (m2 := round_nearest_even (shr_m mrs') (loc_of_shr_record mrs')) in *.
  destruct (Hstep m2 e' loc_Exact ltac:(lia) Hb ltac:(lia)) as (Ha2 & Hb2 & Hc2 & _).
  destruct (shr_fexp prec emax m2 e' loc_Exact) as [mrs'' e''] eqn:E2. simpl in Ha2, Hb2, Hc2.
  destruct (shr_m mrs'') as [|p|p]; [reflexivity| |lia].
  destruct (Z.leb_spec e'' (emax - prec)) as [|Hbad]; [|lia].
  repeat split; assumption.
Qed.


Lemma Zdigits2_unique m k : 0 < k -> 2 ^ (k - 1) <= m < 2 ^ k -> Zdigits2 m = k.
Proof.
  intros Hk [Hlo Hhi].
  assert (0 < 2 ^ (k - 1)) by (apply Z.pow_pos_nonneg; lia).
  assert (Hle := Zdigits2_le_of_lt m k ltac:(lia) ltac:(lia) Hhi).
  destruct (Zdigits2_bounds m ltac:(lia)) as [_ Hub].
  destruct (Z_le_gt_dec k (Zdigits2 m)) as [|Hgt]; [lia|exfalso].
  assert (2 ^ Zdigits2 m <= 2 ^ (k - 1)).
  { apply Z.pow_le_mono_r; [lia|]. lia. }
  lia.
Qed.

Lemma shl_align_spec mx ex ex' :
  ex' <= ex ->
  snd (shl_align mx ex ex') = ex' /\
  Z.pos (fst (shl_align mx ex ex')) = Z.pos mx * 2 ^ (ex - ex').
Proof.
  intros Hle. unfold shl_align.
  destruct (ex' - ex) as [|d|d] eqn:Hd; cbn [fst snd]; try lia.
  - split; [lia|]. replace (ex - ex') with 0 by lia. lia.
  - split; [reflexivity|].
    change (Pos.iter xO mx d) with (Zpower.shift_pos d mx).
    rewrite Zpower.shift_pos_correct. replace (ex - ex') with (Z.pos d) by lia.
    change (Z.pow_pos 2 d) with (2 ^ Z.pos d). lia.
Qed.

(** A mantissa that already sits at its canonical exponent is returned
    unchanged by rounding. *)
Lemma binary_round_aux_exact sx m e :
  fexp prec emax (Zdigits2 (Z.pos m) + e) <= e -> e <= emax - prec ->
  binary_round_aux prec emax sx (Z.pos m) e loc_Exact = S754_finite sx m e.
Proof.
  intros Hf He.
  assert (Hs : shr_fexp prec emax (Z.pos m) e loc_Exact =
               (shr_record_of_loc (Z.pos m) loc_Exact, e)).
  { unfold shr_fexp, shr.
    destruct (fexp prec emax (Zdigits2 (Z.pos m) + e) - e) eqn:Hn; try reflexivity; lia. }
  unfold binary_round_aux. rewrite Hs. cbn [shr_record_of_loc shr_m loc_of_shr_record round_nearest_even].
  rewrite Hs. cbn [shr_record_of_loc shr_m].
  destruct (Z.leb_spec e (emax - prec)); [reflexivity|lia].
Qed.

(** Integers below 2^53 convert exactly, to a 53-bit mantissa. *)
Lemma num_of_Z_exact z :
  0 < z < 2 ^ 53 ->
  exists m e, num_of_Z z = S754_finite false m e /\ -52 <= e <= 0 /\
    Z.pos m = z * 2 ^ (- e) /\ 2 ^ 52 <= Z.pos m < 2 ^ 53 /\
    e = Zdigits2 z - 53.
Proof.
  intros [Hz0 Hz]. destruct z as [|p|p]; try lia.
  unfold num_of_Z, binary_normalize, binary_round.
  set (d := Z.pos (digits2_pos p)).
  assert (Hd : 1 <= d <= 53).
  { split; [unfold d; lia|]. apply (Zdigits2_le_of_lt (Z.pos p)); lia. }
  destruct (Zdigits2_bounds (Z.pos p) ltac:(lia)) as [Hlo Hhi].
  change (Zdigits2 (Z.pos p)) with d in Hlo, Hhi.
  assert (Hfe : fexp prec emax (d + 0) = d - 53) by (rewrite fexp_eq; lia).
  rewrite Hfe.
  destruct (shl_align_spec p 0 (d - 53) ltac:(lia)) as [He Hm].
  destruct (shl_align p 0 (d - 53)) as [mz ez]. cbn [fst snd] in He, Hm. subst ez.
  replace (0 - (d - 53)) with (53 - d) in Hm by lia.
  assert (Hrange : 2 ^ 52 <= Z.pos mz < 2 ^ 53).
  { rewrite Hm.
    assert (H52 : 2 ^ 52 = 2 ^ (d - 1) * 2 ^ (53 - d)).
    { rewrite <- Z.pow_add_r by lia. f_equal. lia. }
    assert (H53 : 2 ^ 53 = 2 ^ d * 2 ^ (53 - d)).
    { rewrite <- Z.pow_add_r by lia. f_equal. lia. }
    assert (0 < 2 ^ (53 - d)) by (apply Z.pow_pos_nonneg; lia).
    rewrite H52, H53. nia. }
  assert (Hdz : Zdigits2 (Z.pos mz) = 53) by (apply Zdigits2_unique; [lia|exact Hrange]).
  exists mz, (d - 53). split; [|split; [lia|split; [|split]]].
  - apply binary_round_aux_exact.
    + rewrite Hdz, fexp_eq. lia.
    + unfold emax, prec. lia.
  - rewrite Hm. f_equal. f_equal. lia.
  - exact Hrange.
  - reflexivity.
Qed.


(** ** Bounds from below, and sharper bounds from above *)

Lemma Zdigits2_ge_of_le m k : 0 < k -> 2 ^ (k - 1) <= m -> k <= Zdigits2 m.
Proof.
  intros Hk Hle.
  assert (0 < 2 ^ (k - 1)) by (apply Z.pow_pos_nonneg; lia).
  destruct (Zdigits2_bounds m ltac:(lia)) as [_ Hub].
  destruct (Z_le_gt_dec k (Zdigits2 m)) as [|Hgt]; [assumption|exfalso].
  assert (2 ^ Zdigits2 m <= 2 ^ (k - 1)).
  { apply Z.pow_le_mono_r; [lia|]. lia. }
  lia.
Qed.

Lemma Zdigits2_mono a b : 0 < a <= b -> Zdigits2 a <= Zdigits2 b.
Proof.
  intros [Ha Hab].
  destruct (Zdigits2_bounds a Ha) as [Hlo _].
  destruct (Z.eq_dec (Zdigits2 a) 0) as [H0|Hn0].
  - rewrite H0. apply Zdigits2_nonneg.
  - apply Zdigits2_ge_of_le; [pose proof (Zdigits2_nonneg a); lia|lia].
Qed.

Lemma Zdigits2_double a : 0 < a -> Zdigits2 (2 * a) = Zdigits2 a + 1.
Proof.
  intros Ha. destruct (Zdigits2_bounds a Ha) as [Hlo Hhi].
  assert (0 < Zdigits2 a).
  { destruct a as [|p|p]; try lia. simpl. lia. }
  apply Zdigits2_unique; [lia|].
  replace (Zdigits2 a + 1 - 1) with (Z.succ (Zdigits2 a - 1)) by lia.
  replace (Zdigits2 a + 1) with (Z.succ (Zdigits2 a)) by lia.
  rewrite !Z.pow_succ_r by lia. lia.
Qed.

(** A value of at least a representable [K * 2^E] rounds to a result that
    is not below it. *)
Lemma binary_round_aux_lower sx mx ex lx K E :
  0 < K -> fexp prec emax (Zdigits2 K + E) = E ->
  ex <= E -> K * 2 ^ (E - ex) <= mx ->
  match binary_round_aux prec emax sx mx ex lx with
  | S754_finite s m e => s = sx /\ (E < e \/ (e = E /\ K <= Z.pos m))
  | S754_infinity s => s = sx
  | _ => False
  end.
Proof.
  intros HK Hcan Hex Hle.
  assert (HKb := Zdigits2_bounds K HK).
  assert (HEmin : -1074 <= E) by (rewrite <- Hcan, fexp_eq; lia).
  assert (Hstep : forall m e l,
     0 < m -> (e <= E /\ K * 2 ^ (E - e) <= m) \/ E < e ->
     let r := shr_fexp prec emax m e l in
     0 < shr_m (fst r) /\ E <= snd r /\ (snd r = E -> K <= shr_m (fst r))).
  { intros m e l Hm Hpre r.
    destruct (shr_fexp_m m e l ltac:(lia)) as [H1 H2]. fold r in H1, H2.
    rewrite H1, H2. clear H1 H2 r.
    destruct (Zdigits2_bounds m Hm) as [Hmlo Hmhi].
    set (d := Zdigits2 m) in *.
    set (n := fexp prec emax (d + e) - e).
    assert (Hshift : 0 < n -> -1074 < fexp prec emax (d + e) -> 0 < m / 2 ^ n).
    { intros Hn Hbig.
      assert (Hn' : n = d - 53) by (unfold n in *; rewrite fexp_eq in *; lia).
      apply Z.div_str_pos. split; [apply Z.pow_pos_nonneg; lia|].
      transitivity (2 ^ (d - 1)); [|exact Hmlo].
      apply Z.pow_le_mono_r; lia. }
    destruct Hpre as [[He Hb]|He].
    - assert (Hd : Zdigits2 K + E <= d + e).
      { assert (0 < 2 ^ (E - e)) by (apply Z.pow_pos_nonneg; lia).
        assert (2 ^ (Zdigits2 K - 1 + (E - e)) <= m).
        { rewrite Z.pow_add_r by (pose proof (Zdigits2_nonneg K);
            destruct K; simpl in *; lia). nia. }
        assert (Zdigits2 K + (E - e) <= d); [|lia].
        apply Zdigits2_ge_of_le; [destruct K; simpl in *; lia|].
        replace (Zdigits2 K + (E - e) - 1) with (Zdigits2 K - 1 + (E - e)) by lia.
        assumption. }
      assert (Hf := fexp_mono _ _ Hd). rewrite Hcan in Hf.
      destruct (Z.ltb_spec 0 n) as [Hn|Hn].
      + split; [|split].
        * destruct (Z.eq_dec (e + n) E) as [HeqE|HneE].
          -- assert (Hn' : n = E - e) by lia. rewrite Hn'.
             assert (0 < 2 ^ (E - e)) by (apply Z.pow_pos_nonneg; lia).
             assert (K <= m / 2 ^ (E - e)); [|lia].
             apply Z.div_le_lower_bound; lia.
          -- apply Hshift; [assumption|]. unfold n in *. lia.
        * unfold n. lia.
        * intros HeqE. assert (Hn' : n = E - e) by lia. rewrite Hn'.
          assert (0 < 2 ^ (E - e)) by (apply Z.pow_pos_nonneg; lia).
          apply Z.div_le_lower_bound; lia.
      + assert (e = E) by (unfold n in *; lia). subst e.
        replace (E - E) with 0 in Hb by lia. rewrite Z.pow_0_r in Hb.
        repeat split; try lia.
    - destruct (Z.ltb_spec 0 n) as [Hn|Hn].
      + split; [|split; [unfold n; lia|unfold n; lia]].
        apply Hshift; [assumption|]. unfold n in *. lia.
      + repeat split; lia. }
  unfold binary_round_aux.
  assert (Hmx : 0 < mx).
  { assert (0 < 2 ^ (E - ex)) by (apply Z.pow_pos_nonneg; lia). nia. }
  destruct (Hstep mx ex lx Hmx ltac:(left; split; assumption)) as (Ha & Hb & Hc).
  destruct (shr_fexp prec emax mx ex lx) as [mrs' e'] eqn:E1. cbn [fst snd] in Ha, Hb, Hc.
  pose proof (round_nearest_even_bounds (shr_m mrs') (loc_of_shr_record mrs')) as Hr.
  set (m2 := round_nearest_even (shr_m mrs') (loc_of_shr_record mrs')) in *.
  assert (Hpre2 : (e' <= E /\ K * 2 ^ (E - e') <= m2) \/ E < e').
  { destruct (Z.eq_dec e' E) as [->|Hne]; [left|right; lia].
    split; [lia|]. replace (E - E) with 0 by lia. rewrite Z.pow_0_r.
    specialize (Hc eq_refl). lia. }
  destruct (Hstep m2 e' loc_Exact ltac:(lia) Hpre2) as (Ha2 & Hb2 & Hc2).
  destruct (shr_fexp prec emax m2 e' loc_Exact) as [mrs'' e''] eqn:E2.
  cbn [fst snd] in Ha2, Hb2, Hc2.
  destruct (shr_m mrs'') as [|p|p]; [lia| |lia].
  destruct (Z.leb_spec e'' (emax - prec)); [|reflexivity].
  split; [reflexivity|].
  destruct (Z.eq_dec e'' E) as [->|Hne]; [right|left; lia].
  split; [reflexivity|]. by apply Hc2.
Qed.

(** The quotient of two counts, rounded, against a representable bound
    [K * 2^E]. *)
Lemma num_div_core c t :
  0 < c < 2 ^ 53 -> 0 < t < 2 ^ 53 ->
  exists q e' l A B,
    num_div (num_of_Z c) (num_of_Z t) = binary_round_aux prec emax false q e' l /\
    e' = Zdigits2 c - Zdigits2 t - 53 /\
    0 < A /\ 0 < B /\ 0 <= q /\
    (* B * t * q <= A * c * 2^53 < B * t * (q + 1), with A / B = 2^(-53 - e') *)
    t * B * q <= c * A * 2 ^ 53 /\ c * A * 2 ^ 53 < t * B * (q + 1) /\
    (forall E, e' <= E -> E <= 0 -> A * 2 ^ 53 = 2 ^ (E - e') * 2 ^ (- E) * B).
Proof.
  intros Hc Ht.
  destruct (num_of_Z_exact c Hc) as (mc & ec & -> & Hec & Hmc & Hrc & Hdc).
  destruct (num_of_Z_exact t Ht) as (mt & et & -> & Het & Hmt & Hrt & Hdt).
  assert (Hdmc : Zdigits2 (Z.pos mc) = 53) by (apply Zdigits2_unique; [lia|exact Hrc]).
  assert (Hdmt : Zdigits2 (Z.pos mt) = 53) by (apply Zdigits2_unique; [lia|exact Hrt]).
  unfold num_div, SFdiv, SFdiv_core_binary. rewrite Hdmc, Hdmt.
  assert (He' : Z.min (fexp prec emax (53 + ec - (53 + et))) (ec - et) = ec - et - 53).
  { rewrite fexp_eq. lia. }
  rewrite He'. replace (ec - et - (ec - et - 53)) with 53 by lia.
  rewrite Z.shiftl_mul_pow2 by lia.
  pose proof (Z_div_mod (Z.pos mc * 2 ^ 53) (Z.pos mt) ltac:(lia)) as Hdiv.
  destruct (Z.div_eucl (Z.pos mc * 2 ^ 53) (Z.pos mt)) as [q r].
  destruct Hdiv as [Hq Hr]. cbn [xorb].
  assert (HA : 0 < 2 ^ (- ec)) by (apply Z.pow_pos_nonneg; lia).
  assert (HB : 0 < 2 ^ (- et)) by (apply Z.pow_pos_nonneg; lia).
  exists q, (ec - et - 53), (new_location (Z.pos mt) r), (2 ^ (- ec)), (2 ^ (- et)).
  split; [reflexivity|]. split; [lia|]. split; [exact HA|]. split; [exact HB|].
  rewrite Hmc, Hmt in Hq. rewrite Hmt in Hr.
  split; [nia|]. split; [nia|]. split; [nia|].
  intros E HE HE0. rewrite <- !Z.pow_add_r by lia. f_equal. lia.
Qed.

Lemma num_div_upper c t K E :
  0 < c < 2 ^ 53 -> 0 < t < 2 ^ 53 ->
  0 < K -> fexp prec emax (Zdigits2 K + E) = E -> E <= 0 ->
  Zdigits2 c - Zdigits2 t - 53 <= E ->
  c * 2 ^ (- E) < K * t ->
  bounded_above K E (num_div (num_of_Z c) (num_of_Z t)).
Proof.
  intros Hc Ht HK Hcan HE He' Hlt.
  destruct (num_div_core c t Hc Ht) as (q & e' & l & A & B & -> & -> & HA & HB & Hq0 & Hq1 & _ & Hid).
  specialize (Hid E He' HE).
  set (e' := Zdigits2 c - Zdigits2 t - 53) in *.
  pose proof (binary_round_aux_upper false q e' l K E Hq0 HK Hcan
                ltac:(unfold emax, prec; lia) He') as Hub.
  assert (HG : 0 < 2 ^ (E - e')) by (apply Z.pow_pos_nonneg; lia).
  assert (HN : 0 < 2 ^ (- E)) by (apply Z.pow_pos_nonneg; lia).
  set (G := 2 ^ (E - e')) in *. set (N := 2 ^ (- E)) in *. set (P := 2 ^ 53) in *.
  assert (Hq : q < K * G).
  { assert (H1 : t * B * q <= c * (G * N * B)) by (rewrite <- Hid; lia).
    assert (H2 : t * q <= c * N * G) by nia.
    assert (H3 : c * N * G < K * t * G) by nia.
    nia. }
  specialize (Hub Hq). unfold bounded_above.
  destruct (binary_round_aux prec emax false q e' l); try contradiction; assumption.
Qed.

Lemma num_div_lower c t K E :
  0 < c < 2 ^ 53 -> 0 < t < 2 ^ 53 ->
  0 < K -> fexp prec emax (Zdigits2 K + E) = E -> E <= 0 ->
  Zdigits2 c - Zdigits2 t - 53 <= E ->
  K * t <= c * 2 ^ (- E) ->
  not_below K E (num_div (num_of_Z c) (num_of_Z t)).
Proof.
  intros Hc Ht HK Hcan HE He' Hle.
  destruct (num_div_core c t Hc Ht) as (q & e' & l & A & B & -> & -> & HA & HB & Hq0 & _ & Hq2 & Hid).
  specialize (Hid E He' HE).
  set (e' := Zdigits2 c - Zdigits2 t - 53) in *.
  pose proof (binary_round_aux_lower false q e' l K E HK Hcan He') as Hlb.
  assert (HG : 0 < 2 ^ (E - e')) by (apply Z.pow_pos_nonneg; lia).
  assert (HN : 0 < 2 ^ (- E)) by (apply Z.pow_pos_nonneg; lia).
  set (G := 2 ^ (E - e')) in *. set (N := 2 ^ (- E)) in *. set (P := 2 ^ 53) in *.
  assert (Hq : K * G <= q).
  { assert (H1 : c * (G * N * B) < t * B * (q + 1)) by (rewrite <- Hid; lia).
    assert (H2 : c * N * G < t * (q + 1)) by nia.
    assert (H3 : K * t * G <= c * N * G) by nia.
    assert (H4 : K * G < q + 1) by nia.
    lia. }
  specialize (Hlb Hq). unfold not_below.
  destruct (binary_round_aux prec emax false q e' l); try contradiction; assumption.
Qed.

(** The product with the literal 100. *)
Lemma num_mul_100_bounded K E K' E' x :
  bounded_above K E x ->
  0 < K' -> fexp prec emax (Zdigits2 K' + E') = E' -> E' <= emax - prec ->
  E - 46 <= E' ->
  K * 7036874417766400 < K' * 2 ^ (E' + 46 - E) ->
  bounded_above K' E' (num_mul x n100).
Proof.
  destruct x as [s|s| |s m e]; cbn [bounded_above]; try contradiction.
  - intros -> _ _ _ _ _. reflexivity.
  - intros (-> & He & Hm) HK' Hcan HE' HEE Hlt.
    unfold num_mul, n100, SFmul. cbn [xorb].
    pose proof (binary_round_aux_upper false (Z.pos (m * 7036874417766400)) (e + -46) loc_Exact
                  K' E' ltac:(lia) HK' Hcan HE' ltac:(lia)) as Hub.
    assert (Hlt' : Z.pos (m * 7036874417766400) < K' * 2 ^ (E' - (e + -46))).
    { assert (Hp : 2 ^ (E' - (e + -46)) = 2 ^ (E' + 46 - E) * 2 ^ (E - e)).
      { rewrite <- Z.pow_add_r by lia. f_equal. lia. }
      assert (0 < 2 ^ (E - e)) by (apply Z.pow_pos_nonneg; lia).
      rewrite Pos2Z.inj_mul, Hp.
      set (M := 7036874417766400) in *. set (G := 2 ^ (E - e)) in *.
      set (H' := 2 ^ (E' + 46 - E)) in *.
      assert (Z.pos m * M <= K * G * M) by nia.
      assert (K * M * G < K' * H' * G) by nia. nia. }
    specialize (Hub Hlt').
    destruct (binary_round_aux prec emax false (Z.pos (m * 7036874417766400)) (e + -46) loc_Exact);
      try contradiction; assumption.
Qed.

(** A quotient of exactly one half or more, times 100, is not below 50. *)
Lemma num_mul_100_lower x :
  bounded_above (2 ^ 53 - 1) (-53) x -> not_below (2 ^ 52) (-53) x ->
  not_below 7036874417766400 (-47) (num_mul x n100).
Proof.
  destruct x as [s|s| |s m e]; cbn [bounded_above not_below]; try contradiction.
  intros (-> & He & _) (_ & Hlo).
  assert (He' : e = -53) by lia. subst e.
  assert (Hm : 2 ^ 52 <= Z.pos m) by lia. clear Hlo He.
  unfold num_mul, n100, SFmul. cbn [xorb].
  pose proof (binary_round_aux_lower false (Z.pos (m * 7036874417766400)) (-53 + -46) loc_Exact
                7036874417766400 (-47) ltac:(lia) ltac:(reflexivity) ltac:(lia)) as Hlb.
  assert (Hle : 7036874417766400 * 2 ^ (-47 - (-53 + -46)) <= Z.pos (m * 7036874417766400)).
  { change (-47 - (-53 + -46)) with 52. rewrite Pos2Z.inj_mul. nia. }
  specialize (Hlb Hle). unfold not_below.
  destruct (binary_round_aux prec emax false (Z.pos (m * 7036874417766400)) (-53 + -46) loc_Exact);
    try contradiction; assumption.
Qed.


Lemma num_div_self t : 0 < t < 2 ^ 53 ->
  num_div (num_of_Z t) (num_of_Z t) = S754_finite false 4503599627370496 (-52).
Proof.
  intros Ht.
  destruct (num_of_Z_exact t Ht) as (mt & et & -> & Het & Hmt & Hrt & _).
  assert (Hdt : Zdigits2 (Z.pos mt) = 53) by (apply Zdigits2_unique; [lia|exact Hrt]).
  unfold num_div, SFdiv, SFdiv_core_binary. rewrite Hdt.
  replace (53 + et - (53 + et)) with 0 by lia.
  replace (et - et) with 0 by lia.
  change (Z.min (fexp prec emax 0) 0) with (-53).
  change (0 - -53) with 53.
  rewrite Z.shiftl_mul_pow2 by lia.
  pose proof (Z_div_mod (Z.pos mt * 2 ^ 53) (Z.pos mt) ltac:(lia)) as Hdiv.
  destruct (Z.div_eucl (Z.pos mt * 2 ^ 53) (Z.pos mt)) as [q r].
  destruct Hdiv as [Hq Hr].
  assert (Hqr : q = 2 ^ 53 /\ r = 0).
  { clear - Hq Hr. set (P := 2 ^ 53) in *. clearbody P.
    assert (Hr' : Z.pos mt * (P - q) = r) by lia.
    assert (Hz : P - q = 0).
    { destruct (Z.lt_trichotomy (P - q) 0) as [H|[H|H]]; [exfalso|assumption|exfalso]; nia. }
    rewrite Hz in Hr'. lia. }
  destruct Hqr as [-> ->].
  unfold new_location, new_location_even, new_location_odd.
  change (0 =? 0) with true. destruct (Z.even (Z.pos mt)); reflexivity.
Qed.

Lemma percentage_at_most_100_Z c t :
  0 <= c <= t -> 0 < t < 2 ^ 53 ->
  at_most_100 (num_mul (num_div (num_of_Z c) (num_of_Z t)) n100).
Proof.
  intros Hc Ht. unfold at_most_100.
  assert (H53 : 2 ^ 53 = 9007199254740992) by reflexivity.
  destruct (Z.eq_dec c 0) as [->|Hc0].
  { destruct (num_of_Z_exact t Ht) as (mt & et & -> & _). reflexivity. }
  destruct (Z.eq_dec c t) as [->|Hct].
  { rewrite num_div_self by assumption. vm_compute. intuition discriminate. }
  assert (Hdig : Zdigits2 c <= Zdigits2 t) by (apply Zdigits2_mono; lia).
  eapply (num_mul_100_bounded (2 ^ 53 - 1) (-53));
    [|lia|reflexivity|unfold emax, prec; lia|lia|].
  - apply num_div_upper; [lia|lia|lia|reflexivity|lia|lia|].
    change (2 ^ (- -53)) with (2 ^ 53). lia.
  - change (2 ^ (-46 + 46 - -53)) with (2 ^ 53). lia.
Qed.


(** ** Comparisons with the literals 50 and 100 *)


Lemma at_most_100_compare_50 x :
  at_most_100 x -> exists c, SFcompare x n50 = Some c /\ SFcompare n50 x = Some (CompOpp c).
Proof.
  destruct x as [s|s| |s m e]; cbn [at_most_100]; try contradiction.
  - intros ->. exists Lt. split; reflexivity.
  - intros (-> & _). unfold n50. cbn [SFcompare].
    rewrite (Z.compare_antisym e (-47)).
    rewrite !Pos.compare_cont_spec.
    rewrite (Pos.compare_antisym m 7036874417766400).
    destruct (e ?= -47); cbn [CompOpp]; eauto.
    destruct (m ?= 7036874417766400)%positive; cbn [CompOpp Pos.switch_Eq]; eauto.
Qed.



Lemma bounded_above_compare K E x :
  0 < K -> bounded_above (K - 1) E x ->
  SFcompare x (S754_finite false (Z.to_pos K) E) = Some Lt.
Proof.
  intros HK. destruct x as [s|s| |s m e]; cbn [bounded_above]; try contradiction.
  - intros ->. reflexivity.
  - intros (-> & He & Hm). cbn [SFcompare].
    destruct (Z.compare_spec e E) as [->|Hlt|Hgt]; [|reflexivity|lia].
    replace (E - E) with 0 in Hm by lia. rewrite Z.pow_0_r, Z.mul_1_r in Hm.
    rewrite Pos.compare_cont_spec.
    destruct (Pos.compare_spec m (Z.to_pos K)) as [Heq|Hl|Hg]; cbn; [|reflexivity|].
    + subst m. rewrite Z2Pos.id in Hm; lia.
    + apply Pos2Z.pos_lt_pos in Hg. rewrite Z2Pos.id in Hg; lia.
Qed.

Lemma not_below_compare K E x :
  not_below (Z.pos K) E x ->
  SFcompare (S754_finite false K E) x = Some Lt \/
  SFcompare (S754_finite false K E) x = Some Eq.
Proof.
  destruct x as [s|s| |s m e]; cbn [not_below]; try contradiction.
  - intros ->. left. reflexivity.
  - intros (-> & Hlo). cbn [SFcompare].
    destruct (Z.compare_spec E e) as [->|Hlt|Hgt]; [|left; reflexivity|lia].
    rewrite Pos.compare_cont_spec.
    destruct (Pos.compare_spec K m) as [Heq|Hl|Hg]; cbn; [by right|by left|].
    destruct Hlo as [?|[_ Hlo]]; lia.
Qed.

(** The percentage of [c] out of [t], against its two thresholds, in
    terms of the counts. *)
Lemma percentage_thresholds_Z c t :
  0 <= c <= t -> 0 < t < 2 ^ 49 ->
  let rp := num_mul (num_div (num_of_Z c) (num_of_Z t)) n100 in
  (num_strict_eq rp n100 = true <-> c = t) /\
  (num_ge rp n50 = true <-> t <= 2 * c).
Proof.
  intros Hc Ht rp.
  assert (H49 : 2 ^ 49 = 562949953421312) by reflexivity.
  assert (H53 : 2 ^ 53 = 9007199254740992) by reflexivity.
  destruct (Z.eq_dec c 0) as [->|Hc0].
  { assert (Hz : rp = S754_zero false).
    { unfold rp. destruct (num_of_Z_exact t ltac:(lia)) as (mt & et & -> & _). reflexivity. }
    rewrite Hz. split; (split; [discriminate|lia]). }
  destruct (Z.eq_dec c t) as [->|Hct].
  { assert (Hz : rp = n100).
    { unfold rp. rewrite num_div_self by lia. reflexivity. }
    rewrite Hz. split; (split; [intros _; lia|reflexivity]). }
  assert (Hdig : Zdigits2 c <= Zdigits2 t) by (apply Zdigits2_mono; lia).
  assert (Hx : bounded_above (2 ^ 53 - 16) (-53) (num_div (num_of_Z c) (num_of_Z t))).
  { apply num_div_upper; [lia|lia|lia|reflexivity|lia|lia|]. change (2 ^ (- -53)) with (2 ^ 53). lia. }
  assert (Hx1 : bounded_above (2 ^ 53 - 1) (-53) (num_div (num_of_Z c) (num_of_Z t))).
  { apply num_div_upper; [lia|lia|lia|reflexivity|lia|lia|]. change (2 ^ (- -53)) with (2 ^ 53). lia. }
  assert (Hrp : bounded_above (7036874417766400 - 1) (-46) rp).
  { unfold rp. eapply num_mul_100_bounded; [exact Hx|lia|reflexivity|unfold emax, prec; lia|lia|].
    change (2 ^ (-46 + 46 - -53)) with (2 ^ 53). lia. }
  apply (bounded_above_compare 7036874417766400 (-46)) in Hrp; [|lia].
  change (S754_finite false (Z.to_pos 7036874417766400) (-46)) with n100 in Hrp.
  split.
  { unfold num_strict_eq, SFeqb. rewrite Hrp. split; [discriminate|lia]. }
  destruct (Z_le_gt_dec t (2 * c)) as [Hhalf|Hhalf].
  - assert (Hlo : not_below (2 ^ 52) (-53) (num_div (num_of_Z c) (num_of_Z t))).
    { apply num_div_lower; [lia|lia|lia|reflexivity|lia|lia|]. change (2 ^ (- -53)) with (2 ^ 53). lia. }
    pose proof (num_mul_100_lower _ Hx1 Hlo) as Hge. fold rp in Hge.
    apply not_below_compare in Hge. change (S754_finite false 7036874417766400 (-47)) with n50 in Hge.
    unfold num_ge, SFleb. destruct Hge as [-> | ->]; split; auto.
  - assert (Hdig2 : Zdigits2 c < Zdigits2 t).
    { assert (Zdigits2 (2 * c) <= Zdigits2 t) by (apply Zdigits2_mono; lia).
      rewrite Zdigits2_double in * by lia. lia. }
    assert (Hy : bounded_above (2 ^ 53 - 16) (-54) (num_div (num_of_Z c) (num_of_Z t))).
    { apply num_div_upper; [lia|lia|lia|reflexivity|lia|lia|].
      change (2 ^ (- -54)) with (2 * 2 ^ 53). lia. }
    assert (Hrp50 : bounded_above (7036874417766400 - 1) (-47) rp).
    { unfold rp. eapply num_mul_100_bounded; [exact Hy|lia|reflexivity|unfold emax, prec; lia|lia|].
      change (2 ^ (-47 + 46 - -54)) with (2 ^ 53). lia. }
    apply (bounded_above_compare 7036874417766400 (-47)) in Hrp50; [|lia].
    change (S754_finite false (Z.to_pos 7036874417766400) (-47)) with n50 in Hrp50.
    assert (H100 : at_most_100 rp) by (apply percentage_at_most_100_Z; lia).
    destruct (at_most_100_compare_50 rp H100) as (cmp & Hc1 & Hc2).
    rewrite Hrp50 in Hc1. injection Hc1 as <-.
    unfold num_ge, SFleb. rewrite Hc2. cbn. split; [discriminate|lia].
Qed.

(** * The progress bar *)

Lemma elem_of_classList_add c c' (cl : list string) :
  c ∈ classList_add c' cl <-> c = c' \/ c ∈ cl.
Proof.
  unfold classList_add. case_bool_decide as Hin.
  - split; [by right|]. by intros [->|?].
  - rewrite elem_of_app, list_elem_of_singleton. tauto.
Qed.

Lemma elem_of_classList_remove c (cs cl : list string) :
  c ∈ classList_remove cs cl <-> c ∈ cl /\ c ∉ cs.
Proof. unfold classList_remove. rewrite list_elem_of_filter. tauto. Qed.

Lemma not_tier_class (c : string) :
  (forall t, c <> tier_class t) <->
  c <> "bg-success"%string /\ c <> "bg-warning"%string /\ c <> "bg-danger"%string.
Proof.
  split.
  - intros H. repeat split; [apply (H Success)|apply (H Warning)|apply (H Danger)].
  - intros (? & ? & ?) []; assumption.
Qed.

(** The classes after [paint]: the other two tier classes are taken off,
    the tier's own class is put on. *)
Lemma paint_classes card bar c :
  c ∈ pb_classList (paint card bar) <->
  c = tier_class (tier_for (requiredProgress card)) \/
  (c ∈ pb_classList bar /\ forall t, c <> tier_class t).
Proof.
  pose proof (not_elem_of_nil c) as Hnil.
  unfold paint, tier_for. cbn [pb_classList].
  destruct (num_strict_eq (requiredProgress card) n100);
    [|destruct (num_ge (requiredProgress card) n50)];
    rewrite elem_of_classList_add, elem_of_classList_remove, not_tier_class,
      !not_elem_of_cons; cbn [tier_class].
  - destruct (decide (c = "bg-success"%string)); tauto.
  - destruct (decide (c = "bg-warning"%string)); tauto.
  - destruct (decide (c = "bg-danger"%string)); tauto.
Qed.

Lemma tier_class_inj t t' : tier_class t = tier_class t' -> t = t'.
Proof. destruct t, t'; cbn; intros H; try reflexivity; discriminate H. Qed.

Lemma paint_exactly_one card bar t :
  tier_class t ∈ pb_classList (paint card bar) <-> t = tier_for (requiredProgress card).
Proof.
  rewrite paint_classes. split.
  - intros [H|[_ H]]; [by apply tier_class_inj|]. by destruct (H t).
  - intros ->. by left.
Qed.

Lemma paint_tier card bar :
  bar_tier (paint card bar) = Some (tier_for (requiredProgress card)).
Proof.
  unfold bar_tier, has_class.
  pose proof (paint_exactly_one card bar Success) as HS.
  pose proof (paint_exactly_one card bar Warning) as HW.
  pose proof (paint_exactly_one card bar Danger) as HD.
  cbn [tier_class] in HS, HW, HD.
  destruct (tier_for (requiredProgress card));
    repeat case_bool_decide; try reflexivity; exfalso;
    intuition discriminate.
Qed.

Lemma querySelector_card_lookup id doc k card :
  querySelector_card id doc = Some (k, card) -> cards doc !! k = Some card.
Proof. unfold querySelector_card. intros H. by apply list_find_Some in H as (? & _). Qed.

(** What [updateChecklistProgress] does to a card that has a bar. *)
Lemma updateChecklistProgress_bar id doc k card bar :
  querySelector_card id doc = Some (k, card) -> progress_bar card = Some bar ->
  exists doc', updateChecklistProgress id doc = Normal doc' /\
               bar_at doc' k = Some (paint card bar).
Proof.
  intros Hq Hbar. unfold updateChecklistProgress. rewrite Hq, Hbar.
  eexists. split; [reflexivity|].
  unfold bar_at. cbn [cards set_cards].
  apply querySelector_card_lookup in Hq.
  rewrite list_lookup_insert_eq by (by eapply lookup_lt_Some). reflexivity.
Qed.


Lemma checkedRequired_le card : (checkedRequired card <= totalRequired card)%nat.
Proof. apply length_filter. Qed.




(** ** The label *)



(** * Progress recomputation: the claims *)






(** The same tiers in terms of the counts: all required items checked,
    at least half of them, fewer than half (for fewer than 2^49 required
    items). *)
Theorem tier_by_counts id doc k card bar :
  querySelector_card id doc = Some (k, card) -> progress_bar card = Some bar ->
  (0 < totalRequired card)%nat -> Z.of_nat (totalRequired card) < 2 ^ 49 ->
  exists doc' bar',
    updateChecklistProgress id doc = Normal doc' /\
    bar_at doc' k = Some bar' /\
    (bar_tier bar' = Some Success <-> checkedRequired card = totalRequired card) /\
    (bar_tier bar' = Some Warning <->
       (totalRequired card <= 2 * checkedRequired card)%nat /\
       (checkedRequired card < totalRequired card)%nat) /\
    (bar_tier bar' = Some Danger <-> (2 * checkedRequired card < totalRequired card)%nat).
Proof.
  intros Hq Hbar Hpos Hb.
  destruct (updateChecklistProgress_bar id doc k card bar Hq Hbar) as (doc' & Hup & Hat).
  exists doc', (paint card bar). split; [assumption|]. split; [assumption|].
  rewrite paint_tier.
  pose proof (checkedRequired_le card) as Hle.
  assert (Hrp : requiredProgress card =
                num_mul (num_div (num_of_Z (Z.of_nat (checkedRequired card)))
                                 (num_of_Z (Z.of_nat (totalRequired card)))) n100).
  { unfold requiredProgress. by destruct (Nat.ltb_spec 0 (totalRequired card)); [|lia]. }
  destruct (percentage_thresholds_Z (Z.of_nat (checkedRequired card))
              (Z.of_nat (totalRequired card)) ltac:(lia) ltac:(lia)) as [Heq Hge].
  cbn zeta in Heq, Hge. rewrite <- Hrp in Heq, Hge.
  unfold tier_for.
  destruct (num_strict_eq (requiredProgress card) n100);
    [|destruct (num_ge (requiredProgress card) n50)].
  - assert (checkedRequired card = totalRequired card) by (apply Nat2Z.inj; by apply Heq).
    repeat split; intros; try done; try lia.
  - assert (checkedRequired card <> totalRequired card).
    { intros Hc. rewrite Hc in Heq. destruct Heq as [_ Heq]. by specialize (Heq eq_refl). }
    assert (Z.of_nat (totalRequired card) <= 2 * Z.of_nat (checkedRequired card)) by (by apply Hge).
    repeat split; intros; try done; try lia.
  - assert (checkedRequired card <> totalRequired card).
    { intros Hc. rewrite Hc in Heq. destruct Heq as [_ Heq]. by specialize (Heq eq_refl). }
    assert (~ Z.of_nat (totalRequired card) <= 2 * Z.of_nat (checkedRequired card)).
    { intros Hc. apply Hge in Hc. discriminate. }
    repeat split; intros; try done; try lia.
Qed.

(** ** Scenarios *)

(** Checklist A of the specification: four items, two required, one
    required and one other item checked: 50%, warning. *)
Example scenario_checklist_A :
  paint card_A sample_bar =
  {| style_width := "50%"; pb_textContent := "50%";
     pb_classList := ["progress-bar"; "bg-warning"]%string |}.
Proof. vm_compute. reflexivity. Qed.

(** 23 of 40 items checked: the binary64 product is 57.49999999999999,
    and the label reads 57%. *)
Example scenario_23_of_40 :
  style_width (paint (card_of 23 40) sample_bar) = "57.49999999999999%"%string /\
  pb_textContent (paint (card_of 23 40) sample_bar) = "57%"%string.
Proof. split; vm_compute; reflexivity. Qed.

(** A card without items: the percentage is NaN, the label reads NaN%
    and the width is left as it was. *)
Example scenario_empty_card :
  paint (card_of 0 0) sample_bar =
  {| style_width := "0%"; pb_textContent := "NaN%";
     pb_classList := ["progress-bar"; "bg-success"]%string |}.
Proof. vm_compute. reflexivity. Qed.









(** * Checklist persistence *)

Section Restoration.

Variable ls : gmap string string.



Lemma card_core_restore_card card :
  card_core (restore_card ls card) = restore_core ls (card_core card).
Proof. reflexivity. Qed.

(** [updateChecklistProgress] touches progress bars only. *)
Lemma updateChecklistProgress_cores id doc doc' :
  updateChecklistProgress id doc = Normal doc' ->
  card_core <$> cards doc' = card_core <$> cards doc.
Proof.
  unfold updateChecklistProgress.
  destruct (querySelector_card id doc) as [[k card]|] eqn:Hq; [|discriminate].
  apply querySelector_card_lookup in Hq.
  destruct (progress_bar card) as [bar|]; intros [= <-]; [|reflexivity].
  cbn [cards set_cards]. rewrite list_fmap_insert.
  apply list_insert_id. rewrite list_lookup_fmap, Hq. reflexivity.
Qed.





End Restoration.

Lemma bool_toString_true b : bool_decide (bool_toString b = "true"%string) = b.
Proof. by destruct b. Qed.




(** * News *)

(** [updateUnreadCount] issues one request and touches the badge only. *)
Lemma updateUnreadCount_shape get doc :
  exists effects,
    snd (updateUnreadCount get doc) = unread_request :: effects /\
    news_items (fst (updateUnreadCount get doc)) = news_items doc /\
    stray_buttons (fst (updateUnreadCount get doc)) = stray_buttons doc /\
    cards (fst (updateUnreadCount get doc)) = cards doc.
Proof.
  unfold updateUnreadCount, unread_request.
  destruct get as [e|r]; [by eexists|].
  destruct (ok r); [|by eexists].
  destruct (body r) as [| |news]; [by eexists| |];
    (destruct (news_badge doc) as [badge|]; [|by eexists]); [by eexists|].
  destruct (0 <? length news)%nat; by eexists.
Qed.

Lemma updateUnreadCount_failed get doc :
  failed get = true ->
  updateUnreadCount get doc =
    (doc, unread_request :: logged "Error updating news count:" get).
Proof.
  unfold updateUnreadCount, failed. destruct get as [e|r]; [reflexivity|].
  by destruct (ok r).
Qed.

(** C9, as the specification states it, fails: with a badge that reads
    [3] and a response [{"news":[]}], the badge is hidden but its text is
    not set to the array's length; it still reads [3]. *)
Lemma empty_news_keeps_badge_text :
  exists badge',
    news_badge (fst (updateUnreadCount (response_200 []) sample_page)) = Some badge' /\
    badge_textContent badge' = "3"%string /\
    badge_textContent badge' <> length_toString (length (@nil string)) /\
    "d-none"%string ∈ badge_classList badge'.
Proof.
  eexists. split; [reflexivity|]. cbn.
  split; [reflexivity|]. split; [discriminate|].
  apply elem_of_classList_add. by left.
Qed.

(** C9, amended: on a successful unread-count refresh whose response body
    contains a news array, with the badge on the page, the badge is made
    visible (the class [d-none] is taken off) if and only if the array's
    length is greater than 0; when it is, the badge's text is set to the
    length, and when the array is empty the text is left as it was. *)
Theorem badge_after_refresh doc badge r news :
  news_badge doc = Some badge -> ok r = true -> body r = BodyNews news ->
  exists badge',
    updateUnreadCount (Fulfilled r) doc = (set_news_badge badge' doc, [unread_request]) /\
    ("d-none"%string ∉ badge_classList badge' <-> (0 < length news)%nat) /\
    ((0 < length news)%nat ->
       badge_textContent badge' = length_toString (length news)) /\
    (length news = 0%nat -> badge_textContent badge' = badge_textContent badge) /\
    (forall c, c <> "d-none"%string ->
       c ∈ badge_classList badge' <-> c ∈ badge_classList badge).
Proof.
  intros Hbadge Hok Hbody. unfold updateUnreadCount. rewrite Hok, Hbody, Hbadge.
  destruct (Nat.ltb_spec 0 (length news)) as [Hpos|Hzero];
    (eexists; split; [reflexivity|]); cbn [badge_classList badge_textContent].
  - split; [|split; [done|split; [lia|]]].
    + rewrite elem_of_classList_remove, list_elem_of_singleton. tauto.
    + intros c Hc. rewrite elem_of_classList_remove, list_elem_of_singleton. tauto.
  - split; [|split; [lia|split; [done|]]].
    + rewrite elem_of_classList_add. split; [intros H; exfalso; apply H; by left|lia].
    + intros c Hc. rewrite elem_of_classList_add. tauto.
Qed.

Lemma badge_after_refresh_witness :
  exists badge',
    updateUnreadCount (response_200 ["a"; "b"]%string) sample_page
      = (set_news_badge badge' sample_page, [unread_request]) /\
    ("d-none"%string ∉ badge_classList badge' <-> (0 < 2)%nat) /\
    ((0 < 2)%nat -> badge_textContent badge' = length_toString 2) /\
    (2%nat = 0%nat -> badge_textContent badge' = "3"%string) /\
    (forall c, c <> "d-none"%string ->
       c ∈ badge_classList badge' <-> c ∈ ["badge"%string]).
Proof.
  apply (badge_after_refresh sample_page
           {| badge_textContent := "3"; badge_classList := ["badge"%string] |}
           {| status := 200; body := BodyNews ["a"; "b"]%string |} ["a"; "b"]%string);
    reflexivity.
Defined.

(** C2, as the specification states it, fails: a response with status
    500 to the mark-read POST is a failure, the page is left as it was,
    but nothing is logged. *)
Lemma non_2xx_is_not_logged :
  failed response_500 = true /\
  mark_news_read_click (InNewsItem 0 0) response_500 response_500 sample_page
    = Some (sample_page, [Fetch POST "/news/42/mark-read"]) /\
  updateUnreadCount response_500 sample_page = (sample_page, [unread_request]) /\
  forall msg e, ConsoleError msg e ∉ [Fetch POST "/news/42/mark-read"; unread_request].
Proof.
  repeat split. intros msg e Hin.
  apply elem_of_cons in Hin as [Hin|Hin]; [discriminate|].
  apply list_elem_of_singleton in Hin. discriminate.
Qed.

(** C2, amended: for every network outcome of the mark-read and
    unread-count operations that is a failure, the document is left
    unchanged and the one request is the only one issued (no retry); a
    rejected promise is caught and logged to the console, a non-2xx
    response is dropped without a log line. *)
Theorem failure_leaves_document b btn post get doc :
  lookup_button doc b = Some btn ->
  (failed post = true ->
   mark_news_read_click b post get doc =
     Some (doc, Fetch POST (mark_read_url btn) :: logged "Error marking news as read:" post)) /\
  (failed get = true ->
   updateUnreadCount get doc =
     (doc, unread_request :: logged "Error updating news count:" get)).
Proof.
  intros Hbtn. split; [|apply updateUnreadCount_failed].
  unfold mark_news_read_click, failed. rewrite Hbtn. cbn.
  destruct post as [e|r]; [reflexivity|]. by destruct (ok r).
Qed.

Lemma failure_leaves_document_witness :
  (failed (Rejected NetworkFailure) = true ->
   mark_news_read_click (InNewsItem 0 0) (Rejected NetworkFailure) response_500 sample_page =
     Some (sample_page,
           Fetch POST (mark_read_url {| data_news_id := Some "42"%string |})
             :: logged "Error marking news as read:" (Rejected NetworkFailure))) /\
  (failed response_500 = true ->
   updateUnreadCount response_500 sample_page =
     (sample_page, unread_request :: logged "Error updating news count:" response_500)).
Proof.
  apply (failure_leaves_document (InNewsItem 0 0) {| data_news_id := Some "42"%string |}
           (Rejected NetworkFailure) response_500 sample_page).
  reflexivity.
Defined.

(** C1, as the specification states it, fails: after a mark-read POST
    for news item 42 that returns 200, the news item's element is still
    in the document; what was removed is the mark-read button. *)
Lemma news_item_is_not_removed :
  exists doc' effects item',
    mark_news_read_click (InNewsItem 0 0) (response_200 []) (response_200 []) sample_page
      = Some (doc', effects) /\
    length (news_items doc') = 1%nat /\
    news_items doc' !! 0%nat = Some item' /\
    ni_buttons item' = [].
Proof. eexists _, _, _. repeat split. Qed.

(** C1, amended: when the mark-read POST for a news item returns an HTTP
    success status, the handler fades the news item that encloses the
    button (adds the class [opacity-50]), removes the mark-read button
    itself, the news item's element staying in the document, and then
    triggers an unread-count refresh. *)
Theorem mark_read_success doc i j item btn r get :
  news_items doc !! i = Some item -> ni_buttons item !! j = Some btn ->
  ok r = true ->
  exists doc' effects item',
    mark_news_read_click (InNewsItem i j) (Fulfilled r) get doc
      = Some (doc', Fetch POST (mark_read_url btn) :: unread_request :: effects) /\
    length (news_items doc') = length (news_items doc) /\
    news_items doc' !! i = Some item' /\
    ("opacity-50"%string ∈ ni_classList item') /\
    (forall c, c ∈ ni_classList item -> c ∈ ni_classList item') /\
    ni_buttons item' = delete j (ni_buttons item) /\
    (forall i', i' <> i -> news_items doc' !! i' = news_items doc !! i').
Proof.
  intros Hi Hj Hok. unfold mark_news_read_click. cbn. rewrite Hi. cbn. rewrite Hj. cbn.
  rewrite Hok.
  set (faded := {| ni_classList := classList_add "opacity-50" (ni_classList item);
                   ni_buttons := delete j (ni_buttons item) |}).
  set (doc1 := set_news_items (<[i:=faded]> (news_items doc)) doc).
  destruct (updateUnreadCount_shape get doc1) as (effects & Heff & Hnews & _).
  destruct (updateUnreadCount get doc1) as [doc2 effs]. cbn [fst snd] in Heff, Hnews.
  subst effs. exists doc2, effects, faded.
  rewrite Hnews. unfold doc1. cbn [news_items set_news_items].
  split; [reflexivity|]. split; [apply length_insert|].
  split; [apply list_lookup_insert_eq; by eapply lookup_lt_Some|].
  split; [apply elem_of_classList_add; by left|].
  split; [intros c Hc; apply elem_of_classList_add; by right|].
  split; [reflexivity|].
  intros i' Hne. by apply list_lookup_insert_ne.
Qed.

Lemma mark_read_success_witness :
  exists doc' effects item',
    mark_news_read_click (InNewsItem 0 0) (Fulfilled {| status := 200; body := BodyNews [] |})
        (response_200 []) sample_page
      = Some (doc', Fetch POST (mark_read_url {| data_news_id := Some "42"%string |})
                      :: unread_request :: effects) /\
    length (news_items doc') = length (news_items sample_page) /\
    news_items doc' !! 0%nat = Some item' /\
    ("opacity-50"%string ∈ ni_classList item') /\
    (forall c, c ∈ ["news-item"%string] -> c ∈ ni_classList item') /\
    ni_buttons item' = delete 0%nat [ {| data_news_id := Some "42"%string |} ] /\
    (forall i', i' <> 0%nat -> news_items doc' !! i' = news_items sample_page !! i').
Proof.
  apply (mark_read_success sample_page 0 0
           {| ni_classList := ["news-item"%string];
              ni_buttons := [ {| data_news_id := Some "42"%string |} ] |}
           {| data_news_id := Some "42"%string |}
           {| status := 200; body := BodyNews [] |} (response_200 []));
    reflexivity.
Defined.

(** * Further properties of the news code *)

(** X1: whatever the outcome of its request, [updateUnreadCount] issues
    exactly one request, logs at most one line, and leaves the news
    items, the buttons and the checklist cards as they were. *)
Theorem updateUnreadCount_one_request get doc :
  exists logs,
    snd (updateUnreadCount get doc) = unread_request :: logs /\
    (forall m url, Fetch m url ∉ logs) /\
    (length logs <= 1)%nat /\
    news_items (fst (updateUnreadCount get doc)) = news_items doc /\
    stray_buttons (fst (updateUnreadCount get doc)) = stray_buttons doc /\
    cards (fst (updateUnreadCount get doc)) = cards doc.
Proof.
  assert (Hone : forall msg e m url, Fetch m url ∉ [ConsoleError msg e]).
  { intros msg e m url Hin. apply list_elem_of_singleton in Hin. discriminate. }
  assert (Hnil : forall m url, Fetch m url ∉ @nil Effect) by (intros; apply not_elem_of_nil).
  unfold updateUnreadCount, unread_request.
  destruct get as [e|r]; [eexists; repeat split; cbn; auto|].
  destruct (ok r); [|eexists; repeat split; cbn; auto].
  destruct (body r) as [| |news], (news_badge doc) as [badge|];
    try (eexists; repeat split; cbn; auto; fail).
  destruct (0 <? length news)%nat; eexists; repeat split; cbn; auto.
Qed.

(** X2: on a page without the badge element the refresh changes nothing
    at all, and a 2xx response whose body parses is accepted without a
    log line even when it holds no [news]: [data.news] is only read
    once the badge has been found. *)
Theorem refresh_without_badge get doc :
  news_badge doc = None ->
  fst (updateUnreadCount get doc) = doc /\
  (forall r, get = Fulfilled r -> ok r = true -> body r <> BodyUnparseable ->
     snd (updateUnreadCount get doc) = [unread_request]).
Proof.
  intros Hb. unfold updateUnreadCount. rewrite Hb. split.
  - destruct get as [e|r]; [reflexivity|].
    destruct (ok r); [|reflexivity]. by destruct (body r).
  - intros r -> Hok Hbody. rewrite Hok. by destruct (body r).
Qed.

Lemma refresh_without_badge_witness :
  let doc := set_cards [] {| news_items := []; stray_buttons := []; news_badge := None; cards := [] |} in
  let get := Fulfilled {| status := 200; body := BodyWithoutNews |} in
  fst (updateUnreadCount get doc) = doc /\
  (forall r, get = Fulfilled r -> ok r = true -> body r <> BodyUnparseable ->
     snd (updateUnreadCount get doc) = [unread_request]).
Proof.
  apply (refresh_without_badge (Fulfilled {| status := 200; body := BodyWithoutNews |})
           (set_cards [] {| news_items := []; stray_buttons := []; news_badge := None; cards := [] |})).
  reflexivity.
Defined.

(** X3: a 2xx response to the refresh whose body does not parse, or
    parses but holds no [news] while the badge is on the page, is caught
    and logged, and the page is left as it was. *)
Theorem refresh_bad_body r doc :
  ok r = true ->
  body r = BodyUnparseable \/ (body r = BodyWithoutNews /\ is_Some (news_badge doc)) ->
  exists e,
    updateUnreadCount (Fulfilled r) doc =
      (doc, [unread_request; ConsoleError "Error updating news count:" e]) /\
    (body r = BodyUnparseable -> e = InvalidJson) /\
    (body r = BodyWithoutNews -> e = TypeError).
Proof.
  intros Hok Hbody. unfold updateUnreadCount. rewrite Hok.
  destruct Hbody as [Hb|[Hb [badge Hbadge]]]; rewrite Hb.
  - exists InvalidJson. split; [reflexivity|]. split; [reflexivity|discriminate].
  - rewrite Hbadge. exists TypeError. split; [reflexivity|]. split; [discriminate|reflexivity].
Qed.

Lemma refresh_bad_body_witness :
  exists e,
    updateUnreadCount (Fulfilled {| status := 200; body := BodyWithoutNews |}) sample_page =
      (sample_page, [unread_request; ConsoleError "Error updating news count:" e]) /\
    (BodyWithoutNews = BodyUnparseable -> e = InvalidJson) /\
    (BodyWithoutNews = BodyWithoutNews -> e = TypeError).
Proof.
  apply (refresh_bad_body {| status := 200; body := BodyWithoutNews |} sample_page).
  - reflexivity.
  - right. split; [reflexivity|]. eexists. reflexivity.
Defined.

(** X4: the click on a mark-read button that sits outside every news
    item, answered with a success status, fails inside the try block
    ([closest] gives null): the error is logged, the page is left as it
    was, the button stays, and no unread-count refresh is started. *)
Theorem stray_button_success j btn r get doc :
  stray_buttons doc !! j = Some btn -> ok r = true ->
  mark_news_read_click (Stray j) (Fulfilled r) get doc =
    Some (doc, [Fetch POST (mark_read_url btn);
                ConsoleError "Error marking news as read:" TypeError]).
Proof.
  intros Hj Hok. unfold mark_news_read_click. cbn. rewrite Hj. cbn. by rewrite Hok.
Qed.

Lemma stray_button_success_witness :
  let doc := {| news_items := []; stray_buttons := [ {| data_news_id := Some "7"%string |} ];
                news_badge := None; cards := [] |} in
  mark_news_read_click (Stray 0) (response_200 []) (response_200 []) doc =
    Some (doc, [Fetch POST (mark_read_url {| data_news_id := Some "7"%string |});
                ConsoleError "Error marking news as read:" TypeError]).
Proof.
  apply (stray_button_success 0 {| data_news_id := Some "7"%string |}
           {| status := 200; body := BodyNews [] |} (response_200 [])
           {| news_items := []; stray_buttons := [ {| data_news_id := Some "7"%string |} ];
              news_badge := None; cards := [] |}); reflexivity.
Defined.

Lemma updateUnreadCount_news doc badge r news :
  news_badge doc = Some badge -> ok r = true -> body r = BodyNews news ->
  updateUnreadCount (Fulfilled r) doc =
    (set_news_badge
       {| badge_textContent :=
            if (0 <? length news)%nat then length_toString (length news)
            else badge_textContent badge;
          badge_classList :=
            if (0 <? length news)%nat
            then classList_remove ["d-none"%string] (badge_classList badge)
            else classList_add "d-none" (badge_classList badge) |} doc,
     [unread_request]).
Proof.
  intros Hbadge Hok Hbody. unfold updateUnreadCount. rewrite Hok, Hbody, Hbadge.
  by destruct (0 <? length news)%nat.
Qed.

(** X5: a successful mark-read followed by a successful refresh: the
    news item is faded, the button is gone, exactly the two requests are
    issued, nothing is logged, and the badge shows the refreshed count
    (visible if and only if the count is positive); the checklist cards
    are not touched. *)
Theorem mark_read_then_refresh doc i j item btn badge r r' news :
  news_items doc !! i = Some item -> ni_buttons item !! j = Some btn ->
  news_badge doc = Some badge ->
  ok r = true -> ok r' = true -> body r' = BodyNews news ->
  exists doc' item' badge',
    mark_news_read_click (InNewsItem i j) (Fulfilled r) (Fulfilled r') doc
      = Some (doc', [Fetch POST (mark_read_url btn); unread_request]) /\
    news_items doc' !! i = Some item' /\
    "opacity-50"%string ∈ ni_classList item' /\
    ni_buttons item' = delete j (ni_buttons item) /\
    news_badge doc' = Some badge' /\
    ("d-none"%string ∉ badge_classList badge' <-> (0 < length news)%nat) /\
    ((0 < length news)%nat -> badge_textContent badge' = length_toString (length news)) /\
    cards doc' = cards doc.
Proof.
  intros Hi Hj Hbadge Hok Hok' Hbody.
  remember (Fulfilled r') as get eqn:Hget.
  unfold mark_news_read_click. cbn. rewrite Hi. cbn. rewrite Hj. cbn. rewrite Hok.
  set (faded := {| ni_classList := classList_add "opacity-50" (ni_classList item);
                   ni_buttons := delete j (ni_buttons item) |}).
  set (doc1 := set_news_items (<[i:=faded]> (news_items doc)) doc).
  subst get. rewrite (updateUnreadCount_news doc1 badge r' news Hbadge Hok' Hbody).
  eexists _, faded, _. split; [reflexivity|].
  cbn [news_items set_news_badge set_news_items news_badge cards doc1
       badge_classList badge_textContent ni_classList ni_buttons faded].
  split; [apply list_lookup_insert_eq; by eapply lookup_lt_Some|].
  split; [apply elem_of_classList_add; by left|].
  split; [reflexivity|]. split; [reflexivity|].
  destruct (Nat.ltb_spec 0 (length news)) as [Hpos|Hzero];
    cbn [badge_classList badge_textContent].
  - split; [|split; [done|reflexivity]].
    rewrite elem_of_classList_remove, list_elem_of_singleton. tauto.
  - split; [|split; [lia|reflexivity]].
    rewrite elem_of_classList_add. split; [intros H; exfalso; apply H; by left|lia].
Qed.

Lemma mark_read_then_refresh_witness :
  exists doc' item' badge',
    mark_news_read_click (InNewsItem 0 0) (Fulfilled {| status := 200; body := BodyNews [] |})
        (Fulfilled {| status := 200; body := BodyNews ["a"%string] |}) sample_page
      = Some (doc', [Fetch POST (mark_read_url {| data_news_id := Some "42"%string |});
                     unread_request]) /\
    news_items doc' !! 0%nat = Some item' /\
    "opacity-50"%string ∈ ni_classList item' /\
    ni_buttons item' = delete 0%nat [ {| data_news_id := Some "42"%string |} ] /\
    news_badge doc' = Some badge' /\
    ("d-none"%string ∉ badge_classList badge' <-> (0 < 1)%nat) /\
    ((0 < 1)%nat -> badge_textContent badge' = length_toString 1) /\
    cards doc' = cards sample_page.
Proof.
  apply (mark_read_then_refresh sample_page 0 0
           {| ni_classList := ["news-item"%string];
              ni_buttons := [ {| data_news_id := Some "42"%string |} ] |}
           {| data_news_id := Some "42"%string |}
           {| badge_textContent := "3"; badge_classList := ["badge"%string] |}
           {| status := 200; body := BodyNews [] |}
           {| status := 200; body := BodyNews ["a"%string] |} ["a"%string]);
    reflexivity.
Defined.

(** X6: when the mark-read POST succeeds and the refresh it starts
    fails, the news item stays faded and the button stays removed (there
    is no rollback); the badge is left as it was and only a rejected
    refresh is logged. *)
Theorem mark_read_refresh_fails doc i j item btn r get :
  news_items doc !! i = Some item -> ni_buttons item !! j = Some btn ->
  ok r = true -> failed get = true ->
  mark_news_read_click (InNewsItem i j) (Fulfilled r) get doc =
    Some (set_news_items
            (<[i := {| ni_classList := classList_add "opacity-50" (ni_classList item);
                       ni_buttons := delete j (ni_buttons item) |}]> (news_items doc)) doc,
          Fetch POST (mark_read_url btn) :: unread_request
            :: logged "Error updating news count:" get).
Proof.
  intros Hi Hj Hok Hfail.
  unfold mark_news_read_click. cbn. rewrite Hi. cbn. rewrite Hj. cbn. rewrite Hok.
  by rewrite updateUnreadCount_failed.
Qed.

Lemma mark_read_refresh_fails_witness :
  mark_news_read_click (InNewsItem 0 0) (Fulfilled {| status := 200; body := BodyNews [] |})
      response_500 sample_page =
    Some (set_news_items
            (<[0%nat := {| ni_classList := classList_add "opacity-50" ["news-item"%string];
                           ni_buttons := delete 0%nat [ {| data_news_id := Some "42"%string |} ] |}]>
               (news_items sample_page)) sample_page,
          Fetch POST (mark_read_url {| data_news_id := Some "42"%string |}) :: unread_request
            :: logged "Error updating news count:" response_500).
Proof.
  apply (mark_read_refresh_fails sample_page 0 0
           {| ni_classList := ["news-item"%string];
              ni_buttons := [ {| data_news_id := Some "42"%string |} ] |}
           {| data_news_id := Some "42"%string |}
           {| status := 200; body := BodyNews [] |} response_500); reflexivity.
Defined.

(** * Further properties of the progress bar *)

Lemma classList_remove_idempotent cs (cl : list string) :
  classList_remove cs (classList_remove cs cl) = classList_remove cs cl.
Proof.
  unfold classList_remove. induction cl as [|c cl IH]; [reflexivity|].
  rewrite filter_cons. destruct (decide (c ∉ cs)) as [Hc|Hc]; [|exact IH].
  rewrite filter_cons, decide_True by exact Hc. by rewrite IH.
Qed.

Lemma classList_add_idempotent c (cl : list string) :
  classList_add c (classList_add c cl) = classList_add c cl.
Proof.
  unfold classList_add. destruct (decide (c ∈ cl)) as [Hin|Hin].
  - rewrite (bool_decide_eq_true_2 (c ∈ cl)) by exact Hin.
    by rewrite bool_decide_eq_true_2 by exact Hin.
  - rewrite (bool_decide_eq_false_2 (c ∈ cl)) by exact Hin.
    rewrite bool_decide_eq_true_2; [reflexivity|].
    apply elem_of_app. right. by apply list_elem_of_singleton.
Qed.

Lemma classList_remove_add c cs (cl : list string) :
  c ∉ cs ->
  classList_remove cs (classList_add c cl) = classList_add c (classList_remove cs cl).
Proof.
  intros Hc. unfold classList_add.
  assert (Hiff : c ∈ classList_remove cs cl <-> c ∈ cl).
  { rewrite elem_of_classList_remove. tauto. }
  case_bool_decide as Hin.
  - by rewrite bool_decide_eq_true_2 by (by apply Hiff).
  - rewrite bool_decide_eq_false_2 by (by rewrite Hiff).
    unfold classList_remove. rewrite filter_app. f_equal.
    rewrite filter_cons, decide_True by exact Hc. reflexivity.
Qed.

Lemma repaint_classes c cs (cl : list string) :
  c ∉ cs ->
  classList_add c (classList_remove cs (classList_add c (classList_remove cs cl)))
  = classList_add c (classList_remove cs cl).
Proof.
  intros Hc.
  by rewrite classList_remove_add, classList_remove_idempotent, classList_add_idempotent.
Qed.

(** [paint] reads the checkboxes of the card and nothing else of it. *)
Lemma paint_items c1 c2 bar : items c1 = items c2 -> paint c1 bar = paint c2 bar.
Proof.
  intros Hit. unfold paint, progress, requiredProgress, checkedItems, totalItems,
    checkedRequired, totalRequired, requiredItems. by rewrite Hit.
Qed.

Lemma assign_width_idempotent x old :
  assign_width x (assign_width x old) = assign_width x old.
Proof. unfold assign_width. by destruct (valid_percentage x). Qed.

Lemma paint_idempotent card bar : paint card (paint card bar) = paint card bar.
Proof.
  unfold paint. cbn [style_width pb_classList]. rewrite assign_width_idempotent.
  f_equal.
  assert (Hne : forall a b c : string, a <> b -> a <> c -> a ∉ [b; c]).
  { intros a b c Hb Hc Hin. apply elem_of_cons in Hin as [?|Hin]; [done|].
    by apply list_elem_of_singleton in Hin. }
  destruct (num_strict_eq (requiredProgress card) n100);
    [|destruct (num_ge (requiredProgress card) n50)];
    apply repaint_classes, Hne; discriminate.
Qed.

(** The selector finds the same position after the card it found has
    been replaced by one with the same identifier. *)
Lemma querySelector_card_insert id doc k card card' :
  querySelector_card id doc = Some (k, card) ->
  data_checklist_id card' = data_checklist_id card ->
  querySelector_card id (set_cards (<[k:=card']> (cards doc)) doc) = Some (k, card').
Proof.
  unfold querySelector_card. cbn [cards set_cards]. intros Hq Hid.
  apply list_find_Some in Hq as (Hk & HP & Hbefore).
  apply list_find_Some. split; [|split].
  - apply list_lookup_insert_eq. by eapply lookup_lt_Some.
  - by rewrite Hid.
  - intros j c Hj Hlt. rewrite list_lookup_insert_ne in Hj by lia. by eapply Hbefore.
Qed.

(** X7: recomputing the progress of a card twice gives what recomputing
    it once gives: on an unchanged page the update is idempotent. *)
Theorem updateChecklistProgress_idempotent id doc doc' :
  updateChecklistProgress id doc = Normal doc' ->
  updateChecklistProgress id doc' = Normal doc'.
Proof.
  unfold updateChecklistProgress at 1.
  destruct (querySelector_card id doc) as [[k card]|] eqn:Hq; [|discriminate].
  destruct (progress_bar card) as [bar|] eqn:Hbar; intros [= <-].
  - set (card' := {| data_checklist_id := data_checklist_id card; items := items card;
                     progress_bar := Some (paint card bar) |}).
    pose proof (querySelector_card_insert id doc k card card' Hq eq_refl) as Hq'.
    unfold updateChecklistProgress. rewrite Hq'. cbn [progress_bar card'].
    rewrite (paint_items card' card) by reflexivity. rewrite paint_idempotent.
    cbn [cards set_cards data_checklist_id items].
    by rewrite list_insert_insert_eq.
  - unfold updateChecklistProgress. by rewrite Hq, Hbar.
Qed.

Lemma updateChecklistProgress_idempotent_witness :
  updateChecklistProgress (Some "A"%string)
    (document_of (updateChecklistProgress (Some "A"%string) sample_page))
  = Normal (document_of (updateChecklistProgress (Some "A"%string) sample_page)).
Proof.
  apply (updateChecklistProgress_idempotent (Some "A"%string) sample_page). reflexivity.
Defined.









(** X11: the change handler of a checkbox whose card carries no
    [data-checklist-id] (on a page where no card is called [undefined])
    still writes the state, under the key [checklist_undefined_<itemId>],
    and then throws from the progress update, the page left as it was. *)
Theorem change_without_identifier ls doc i j card item :
  cards doc !! i = Some card -> items card !! j = Some item ->
  data_checklist_id card = None ->
  (forall c, c ∈ cards doc -> data_checklist_id c <> Some "undefined"%string) ->
  checklist_item_change ls doc i j =
    Some (<["checklist_undefined_" +:+ interpolate (data_item_id item)
            := bool_toString (checked item)]> ls,
          Throw TypeError doc).
Proof.
  intros Hi Hj Hid Hnone. unfold checklist_item_change. rewrite Hi. cbn. rewrite Hj. cbn.
  rewrite Hid. unfold updateChecklistProgress.
  assert (Hq : querySelector_card None doc = None).
  { unfold querySelector_card. apply list_find_None, Forall_forall.
    intros c Hc. by apply Hnone. }
  by rewrite Hq.
Qed.

Lemma change_without_identifier_witness :
  let card := {| data_checklist_id := None; items := [box "1" false true];
                 progress_bar := Some sample_bar |} in
  let doc := set_cards [card] sample_page in
  checklist_item_change ∅ doc 0 0 =
    Some (<["checklist_undefined_" +:+ interpolate (Some "1"%string)
            := bool_toString true]> ∅,
          Throw TypeError doc).
Proof.
  apply (change_without_identifier ∅
           (set_cards [ {| data_checklist_id := None; items := [box "1" false true];
                           progress_bar := Some sample_bar |} ] sample_page)
           0 0
           {| data_checklist_id := None; items := [box "1" false true];
              progress_bar := Some sample_bar |}
           (box "1" false true)); try reflexivity.
  intros c Hc. apply list_elem_of_singleton in Hc. subst c. discriminate.
Defined.





(** * Further properties of checklist persistence *)

Lemma append_assoc (x y z : string) : (x +:+ y) +:+ z = x +:+ (y +:+ z).
Proof.
  induction x as [|c x IH]; [reflexivity|].
  change (String c ((x +:+ y) +:+ z) = String c (x +:+ (y +:+ z))). by rewrite IH.
Qed.




(** X15: the key does not keep the two identifiers apart: the state
    saved for item [c] of checklist [a_b] is read back for item [b_c] of
    checklist [a], whose checkbox the restoration then sets to it. *)
Theorem storage_key_collision ls a b c st item :
  data_item_id item = Some (b +:+ "_" +:+ c) ->
  storage_key (Some (a +:+ "_" +:+ b)) (Some c) = storage_key (Some a) (data_item_id item) /\
  checked (restore_item
             (<[storage_key (Some (a +:+ "_" +:+ b)) (Some c) := bool_toString st]> ls)
             (Some a) item) = st.
Proof.
  intros Hid.
  assert (Hkey : storage_key (Some (a +:+ "_" +:+ b)) (Some c)
                 = storage_key (Some a) (data_item_id item)).
  { rewrite Hid. unfold storage_key, interpolate, default. cbn [from_option id].
    f_equal. rewrite append_assoc. reflexivity. }
  split; [exact Hkey|].
  unfold restore_item. rewrite Hkey, lookup_insert_eq.
  cbn [set_checked checked]. apply bool_toString_true.
Qed.

Lemma storage_key_collision_witness :
  storage_key (Some ("a" +:+ "_" +:+ "b")) (Some "c"%string)
    = storage_key (Some "a"%string) (data_item_id (box "b_c" false false)) /\
  checked (restore_item
             (<[storage_key (Some ("a" +:+ "_" +:+ "b")) (Some "c"%string)
                := bool_toString true]> ∅)
             (Some "a"%string) (box "b_c" false false)) = true.
Proof.
  apply (storage_key_collision ∅ "a" "b" "c" true (box "b_c" false false)). reflexivity.
Defined.

Lemma updateChecklistProgress_document_cores id doc :
  card_core <$> cards (document_of (updateChecklistProgress id doc))
  = card_core <$> cards doc.
Proof.
  destruct (updateChecklistProgress id doc) as [doc'|e doc'] eqn:Hup; cbn [document_of].
  - by eapply updateChecklistProgress_cores.
  - unfold updateChecklistProgress in Hup.
    destruct (querySelector_card id doc) as [[k card]|]; [|by injection Hup as _ <-].
    by destruct (progress_bar card).
Qed.

Lemma checkbox_at_cores d1 d2 i j :
  card_core <$> cards d1 = card_core <$> cards d2 ->
  checkbox_at d1 i j = checkbox_at d2 i j.
Proof.
  intros Heq. unfold checkbox_at.
  assert (H : (card_core <$> cards d1) !! i = (card_core <$> cards d2) !! i) by by rewrite Heq.
  rewrite !list_lookup_fmap in H.
  destruct (cards d1 !! i) as [c1|], (cards d2 !! i) as [c2|]; cbn in *; try done.
  injection H as _ H. by rewrite H.
Qed.

Lemma checklist_item_change_eq ls doc i j card item :
  cards doc !! i = Some card -> items card !! j = Some item ->
  checklist_item_change ls doc i j =
    Some (<[storage_key (data_checklist_id card) (data_item_id item)
            := bool_toString (checked item)]> ls,
          updateChecklistProgress (data_checklist_id card) doc).
Proof.
  intros Hi Hj. unfold checklist_item_change. rewrite Hi. cbn. rewrite Hj. reflexivity.
Qed.

(** What a toggle leaves behind: one key written, one checkbox flipped. *)
Lemma toggle_spec ls doc i j card item :
  cards doc !! i = Some card -> items card !! j = Some item ->
  exists c,
    toggle ls doc i j =
      Some (<[storage_key (data_checklist_id card) (data_item_id item)
              := bool_toString (negb (checked item))]> ls, c) /\
    card_core <$> cards (document_of c) =
      <[i := (data_checklist_id card,
              <[j := set_checked (negb (checked item)) item]> (items card))]>
        (card_core <$> cards doc).
Proof.
  intros Hi Hj.
  set (item' := set_checked (negb (checked item)) item).
  set (card' := set_items (<[j:=item']> (items card)) card).
  set (doc' := set_cards (<[i:=card']> (cards doc)) doc).
  assert (Hi' : cards doc' !! i = Some card').
  { unfold doc'. cbn [cards set_cards]. apply list_lookup_insert_eq. by eapply lookup_lt_Some. }
  assert (Hj' : items card' !! j = Some item').
  { unfold card'. cbn [items set_items]. apply list_lookup_insert_eq. by eapply lookup_lt_Some. }
  exists (updateChecklistProgress (data_checklist_id card') doc'). split.
  - unfold toggle. rewrite Hi. cbn. rewrite Hj. cbn. fold item' card' doc'.
    exact (checklist_item_change_eq ls doc' i j card' item' Hi' Hj').
  - rewrite updateChecklistProgress_document_cores. unfold doc'. cbn [cards set_cards].
    by rewrite list_fmap_insert.
Qed.

(** X16: a toggle writes one key and flips one checkbox: every other key
    of the storage and every other checkbox of the page is left as it
    was, whether the progress update completes or throws. *)
Theorem toggle_touches_one ls doc i j card item :
  cards doc !! i = Some card -> items card !! j = Some item ->
  exists ls' c,
    toggle ls doc i j = Some (ls', c) /\
    (forall key, key <> storage_key (data_checklist_id card) (data_item_id item) ->
                 ls' !! key = ls !! key) /\
    checkbox_at (document_of c) i j = Some (set_checked (negb (checked item)) item) /\
    (forall i' j', (i', j') <> (i, j) ->
                   checkbox_at (document_of c) i' j' = checkbox_at doc i' j').
Proof.
  intros Hi Hj. destruct (toggle_spec ls doc i j card item Hi Hj) as (c & Ht & Hcores).
  eexists _, c. split; [exact Ht|]. split; [|split].
  - intros key Hne. by apply lookup_insert_ne.
  - unfold checkbox_at.
    assert (H : (card_core <$> cards (document_of c)) !! i =
                Some (data_checklist_id card,
                      <[j := set_checked (negb (checked item)) item]> (items card))).
    { rewrite Hcores. apply list_lookup_insert_eq. rewrite length_fmap.
      by eapply lookup_lt_Some. }
    rewrite list_lookup_fmap in H.
    destruct (cards (document_of c) !! i) as [c1|]; [|discriminate]. cbn in H |- *.
    injection H as _ H. rewrite H. apply list_lookup_insert_eq. by eapply lookup_lt_Some.
  - intros i' j' Hne. unfold checkbox_at.
    assert (H : (card_core <$> cards (document_of c)) !! i' =
                (<[i := (data_checklist_id card,
                         <[j := set_checked (negb (checked item)) item]> (items card))]>
                   (card_core <$> cards doc)) !! i') by by rewrite Hcores.
    rewrite list_lookup_fmap in H.
    destruct (decide (i' = i)) as [->|Hi'].
    + rewrite list_lookup_insert_eq in H
        by (rewrite length_fmap; by eapply lookup_lt_Some).
      rewrite Hi. destruct (cards (document_of c) !! i) as [c1|]; [|discriminate].
      cbn in H |- *. injection H as _ H. rewrite H.
      apply list_lookup_insert_ne. congruence.
    + rewrite list_lookup_insert_ne, list_lookup_fmap in H by done.
      destruct (cards (document_of c) !! i') as [c1|], (cards doc !! i') as [c2|];
        cbn in H |- *; try done.
      injection H as _ H. by rewrite H.
Qed.

Lemma toggle_touches_one_witness :
  exists ls' c,
    toggle ∅ sample_page 0 1 = Some (ls', c) /\
    (forall key, key <> storage_key (Some "A"%string) (Some "2"%string) ->
                 ls' !! key = (∅ : gmap string string) !! key) /\
    checkbox_at (document_of c) 0 1 = Some (set_checked (negb false) (box "2" true false)) /\
    (forall i' j', (i', j') <> (0%nat, 1%nat) ->
                   checkbox_at (document_of c) i' j' = checkbox_at sample_page i' j').
Proof.
  apply (toggle_touches_one ∅ sample_page 0 1 card_A (box "2" true false)); reflexivity.
Defined.

(** X17: toggling the same checkbox twice puts every checkbox of the
    page back to the state it had, and leaves the storage holding the
    original state of that checkbox under its key, all other keys as
    they were. *)
Theorem toggle_twice ls doc i j card item :
  cards doc !! i = Some card -> items card !! j = Some item ->
  exists ls1 c1 ls2 c2,
    toggle ls doc i j = Some (ls1, c1) /\
    toggle ls1 (document_of c1) i j = Some (ls2, c2) /\
    card_core <$> cards (document_of c2) = card_core <$> cards doc /\
    ls2 = <[storage_key (data_checklist_id card) (data_item_id item)
            := bool_toString (checked item)]> ls.
Proof.
  intros Hi Hj. destruct (toggle_spec ls doc i j card item Hi Hj) as (c1 & Ht1 & Hcores1).
  set (item' := set_checked (negb (checked item)) item) in *.
  assert (Hlen : (i < length (card_core <$> cards doc))%nat).
  { rewrite length_fmap. by eapply lookup_lt_Some. }
  assert (H1 : (card_core <$> cards (document_of c1)) !! i =
               Some (data_checklist_id card, <[j := item']> (items card))).
  { rewrite Hcores1. by apply list_lookup_insert_eq. }
  rewrite list_lookup_fmap in H1.
  destruct (cards (document_of c1) !! i) as [card1|] eqn:Hi1; [|discriminate].
  cbn in H1. injection H1 as Hid1 Hit1.
  assert (Hj1 : items card1 !! j = Some item').
  { rewrite Hit1. apply list_lookup_insert_eq. by eapply lookup_lt_Some. }
  destruct (toggle_spec (<[storage_key (data_checklist_id card) (data_item_id item)
                           := bool_toString (negb (checked item))]> ls)
              (document_of c1) i j card1 item' Hi1 Hj1) as (c2 & Ht2 & Hcores2).
  eexists _, c1, _, c2. split; [exact Ht1|]. split; [exact Ht2|]. split.
  - rewrite Hcores2, Hcores1, Hid1, Hit1.
    rewrite list_insert_insert_eq, list_insert_insert_eq.
    assert (Hback : set_checked (negb (checked item')) item' = item).
    { unfold item'. destruct item as [iid req ch]. cbn. by rewrite negb_involutive. }
    rewrite Hback. rewrite (list_insert_id (items card) j item Hj).
    apply list_insert_id. by rewrite list_lookup_fmap, Hi.
  - rewrite Hid1. cbn [data_item_id item' set_checked checked].
    rewrite negb_involutive. apply insert_insert_eq.
Qed.

Lemma toggle_twice_witness :
  exists ls1 c1 ls2 c2,
    toggle ∅ sample_page 0 1 = Some (ls1, c1) /\
    toggle ls1 (document_of c1) 0 1 = Some (ls2, c2) /\
    card_core <$> cards (document_of c2) = card_core <$> cards sample_page /\
    ls2 = <[storage_key (Some "A"%string) (Some "2"%string) := bool_toString false]> ∅.
Proof.
  apply (toggle_twice ∅ sample_page 0 1 card_A (box "2" true false)); reflexivity.
Defined.

(** * The restoration loop, card by card *)

Section RestorationLoop.

Variable ls : gmap string string.














End RestorationLoop.














(** * Page load *)





